(** * demo/image_demo.py: batch inference demo script

    A shallow embedding of [main] of [demo/image_demo.py].  The script is a
    sequence of calls into the detection framework; it is embedded as a
    tree of calls ([prog]) whose leaves are a normal return, a [raise]
    statement of the script, or an error of a built-in operation.  Running
    a tree against an environment that answers the calls gives the
    chronological list of calls made and the way the script ended.

    The string helpers of the Python standard library that the script uses
    ([str.replace], [os.path.join], [os.path.basename],
    [os.path.splitext]) are embedded in their POSIX form, the separator
    being the ['/'] that the script itself hard-codes on line 98. *)

From Stdlib Require Import String Ascii List ZArith Lia Bool.
From Equations Require Import Equations.
Import ListNotations.

Open Scope string_scope.

(* ===================================================================== *)
(** ** Python strings *)
(* ===================================================================== *)

Module PyStr.

Definition slash : ascii := Ascii.ascii_of_nat 47.
Definition dot : ascii := Ascii.ascii_of_nat 46.
Definition underscore : ascii := Ascii.ascii_of_nat 95.
Definition dquote : ascii := Ascii.ascii_of_nat 34.

Definition str1 (c : ascii) : string := String c EmptyString.

(** [s[n:]] for a non-negative [n]. *)
Fixpoint drop (n : nat) (s : string) : string :=
  match n, s with
  | O, _ => s
  | S _, EmptyString => EmptyString
  | S k, String _ s' => drop k s'
  end.

(** [s[:n]] for a non-negative [n]. *)
Fixpoint take (n : nat) (s : string) : string :=
  match n, s with
  | O, _ => EmptyString
  | S _, EmptyString => EmptyString
  | S k, String c s' => String c (take k s')
  end.

(** [s.startswith(p)]. *)
Definition startswith (p s : string) : bool := String.prefix p s.

(** [s.endswith(str1 c)]. *)
Fixpoint ends_with_char (c : ascii) (s : string) : bool :=
  match s with
  | EmptyString => false
  | String a EmptyString => Ascii.eqb a c
  | String _ s' => ends_with_char c s'
  end.

(** [s.rfind(str1 c)]: the highest index of [c] in [s], or [-1]. *)
Fixpoint rfind (c : ascii) (s : string) : Z :=
  match s with
  | EmptyString => (-1)%Z
  | String a s' =>
      let r := rfind c s' in
      if (0 <=? r)%Z then (r + 1)%Z
      else if Ascii.eqb a c then 0%Z else (-1)%Z
  end.

(** [s.replace(old, new)] with an empty [old]: [new] goes before every
    character and after the last one. *)
Fixpoint interleave (new s : string) : string :=
  match s with
  | EmptyString => new
  | String c s' => new ++ String c (interleave new s')
  end.

(** [s.replace(String a old', new)]: scan from the left; where the
    pattern starts, emit [new] and jump over the pattern, else copy one
    character. *)
Equations? replace_scan (a : ascii) (old' new s : string) : string
  by wf (String.length s) lt :=
replace_scan a old' new EmptyString := EmptyString;
replace_scan a old' new (String c s')
  with startswith (String a old') (String c s') := {
  | true => new ++ replace_scan a old' new (drop (String.length old') s')
  | false => String c (replace_scan a old' new s') }.
Proof.
  assert (Hdrop : forall n t, String.length (drop n t) <= String.length t)
    by (induction n; intros [|? ?]; simpl; auto).
  specialize (Hdrop (String.length old') s'); lia.
Qed.

(** [s.replace(old, new)], every occurrence replaced (no count given). *)
Definition replace (old new s : string) : string :=
  match old with
  | EmptyString => interleave new s
  | String a old' => replace_scan a old' new s
  end.

(** Number of positions of [s] at which [p] occurs. *)
Fixpoint occurrences (p s : string) : nat :=
  (if startswith p s then 1 else 0) +
  match s with
  | EmptyString => 0
  | String _ s' => occurrences p s'
  end.

(** [c in s] for a character. *)
Fixpoint mem_char (c : ascii) (s : string) : bool :=
  match s with
  | EmptyString => false
  | String a s' => Ascii.eqb a c || mem_char c s'
  end.

(** Every [c] of [s] turned into [d], the other characters kept. *)
Fixpoint map_char (c d : ascii) (s : string) : string :=
  match s with
  | EmptyString => EmptyString
  | String a s' => String (if Ascii.eqb a c then d else a) (map_char c d s')
  end.

End PyStr.

(* ===================================================================== *)
(** ** os.path (posixpath) *)
(* ===================================================================== *)

Module OsPath.
Import PyStr.

(** [os.path.join(a, b)]. *)
Definition join (a b : string) : string :=
  if startswith (str1 slash) b then b
  else if (String.eqb a EmptyString || ends_with_char slash a)%bool then a ++ b
  else a ++ str1 slash ++ b.

(** [os.path.basename(p)]: [p[p.rfind('/') + 1:]]. *)
Definition basename (p : string) : string :=
  let i := (rfind slash p + 1)%Z in
  drop (Z.to_nat i) p.

(** The [while filenameIndex < dotIndex] loop of [genericpath._splitext];
    [n] is [dotIndex - filenameIndex], the number of iterations left. *)
Fixpoint splitext_scan (p : string) (dotIndex filenameIndex : Z) (n : nat)
  : string * string :=
  match n with
  | O => (p, EmptyString)
  | S k =>
      if negb (String.eqb (take 1 (drop (Z.to_nat filenameIndex) p)) (str1 dot))
      then (take (Z.to_nat dotIndex) p, drop (Z.to_nat dotIndex) p)
      else splitext_scan p dotIndex (filenameIndex + 1)%Z k
  end.

(** [os.path.splitext(p)]: [(root, ext)]. *)
Definition splitext (p : string) : string * string :=
  let sepIndex := rfind slash p in
  let dotIndex := rfind dot p in
  if (sepIndex <? dotIndex)%Z
  then splitext_scan p dotIndex (sepIndex + 1)%Z
         (Z.to_nat (dotIndex - (sepIndex + 1)))
  else (p, EmptyString).

End OsPath.

(** Lines 111-112: [out_file.replace(os.path.splitext(out_file)[-1], '.json')]. *)
Definition labelme_out_file (out_file : string) : string :=
  PyStr.replace (snd (OsPath.splitext out_file)) ".json" out_file.

(* ===================================================================== *)
(** ** The detection framework, as the script sees it *)
(* ===================================================================== *)

Open Scope list_scope.

(** Exceptions. *)
Inductive exn : Type :=
| RuntimeError (msg : string)
| TypeError (msg : string)
| AttributeError (msg : string)
| OtherError (name msg : string).

(** A [dict] with string keys, as [model.dataset_meta]. *)
Definition Dict : Type := list (string * list string).

(** [d.get(key)]. *)
Fixpoint dict_get (key : string) (d : Dict) : option (list string) :=
  match d with
  | [] => None
  | (k, v) :: d' => if String.eqb k key then Some v else dict_get key d'
  end.

(** The [source_type] dictionary returned by [get_file_list]. *)
Record SourceType : Type := {
  is_dir : bool;
  is_url : bool;
  is_file : bool
}.

(** The objects of the framework: the script holds them and hands them
    back, and reads two attributes of the model. *)
Class Framework : Type := {
  Score : Type;
  score_gt : Score -> Score -> bool;   (* one element of [scores > thr] *)
  BBox : Type;
  MetaInfo : Type;
  Image : Type;
  VisualizerCfg : Type;
  Visualizer : Type;
  LabelmeFormatT : Type;
  ProgressBarT : Type;
  Model : Type;
  cfg_visualizer : Model -> VisualizerCfg;   (* [model.cfg.visualizer] *)
  dataset_meta : Model -> Dict               (* [model.dataset_meta] *)
}.

Section Script.
Context {F : Framework}.

(** One row of [pred_instances]. *)
Record Prediction : Type := {
  bbox : BBox;
  label : nat;
  score : Score
}.

(** The data sample returned by [inference_detector]. *)
Record DataSample : Type := {
  pred_instances : list Prediction;
  metainfo : MetaInfo
}.

(** The namespace returned by [parse_args] (lines 16-44). *)
Record Args : Type := {
  img : string;
  config : string;
  checkpoint : string;
  out_dir : string;
  device : string;
  show : bool;
  deploy : bool;
  score_thr : Score;
  class_name : option (list string);
  to_labelme : bool
}.

(** [instances[mask]] for a boolean mask. *)
Fixpoint mask_select {A : Type} (mask : list bool) (l : list A) : list A :=
  match mask, l with
  | b :: mask', x :: l' =>
      if b then x :: mask_select mask' l' else mask_select mask' l'
  | _, _ => []
  end.

(** Lines 106-107:
    [result.pred_instances[result.pred_instances.scores > args.score_thr]]. *)
Definition threshold (thr : Score) (instances : list Prediction)
  : list Prediction :=
  mask_select (map (fun s => score_gt s thr) (map score instances)) instances.

(** The calls the script makes into the framework, the operating system
    and the logger. *)
Inductive call : Type :=
| register_all_modules
| init_detector (config checkpoint device : string)
| switch_to_deploy (model : Model)
| mkdir_or_exist (dir_name : string)
| VISUALIZERS_build (cfg : VisualizerCfg)
| set_dataset_meta (visualizer : Visualizer) (meta : Dict)
| get_file_list (source_root : string)
| LabelmeFormat (classes : option (list string))
| show_data_classes (data_classes : option (list string))
| ProgressBar (task_num : nat)
| inference_detector (model : Model) (file : string)
| imread (file : string)
| imconvert (image : Image) (src dst : string)
| os_path_relpath (path start : string)
| progress_bar_update (bar : ProgressBarT)
| to_label_format (fmt : LabelmeFormatT) (instances : list Prediction)
    (meta : MetaInfo) (output_path : string)
    (selected_classname : option (list string))
| add_datasample (visualizer : Visualizer) (name : string) (image : Image)
    (data_sample : DataSample) (draw_gt show : bool) (wait_time : Z)
    (out_file : option string) (pred_score_thr : Score)
| os_path_abspath (path : string)
| print_log (msg : string).

(** What each call returns. *)
Definition resp (c : call) : Type :=
  match c with
  | init_detector _ _ _ => Model
  | VISUALIZERS_build _ => Visualizer
  | get_file_list _ => (list string * SourceType)%type
  | LabelmeFormat _ => LabelmeFormatT
  | ProgressBar _ => ProgressBarT
  | inference_detector _ _ => DataSample
  | imread _ => Image
  | imconvert _ _ _ => Image
  | os_path_relpath _ _ => string
  | os_path_abspath _ => string
  | _ => unit
  end.

(** The script as a tree: it returns, executes a [raise] statement,
    applies a built-in operation to a value that does not support it, or
    makes a call and goes on with the value returned. *)
Inductive prog (A : Type) : Type :=
| Ret (a : A)
| Raise (e : exn)
| Fault (e : exn)
| Call (c : call) (k : resp c -> prog A).

Arguments Ret {A} a.
Arguments Raise {A} e.
Arguments Fault {A} e.
Arguments Call {A} c k.

Fixpoint bind {A B : Type} (p : prog A) (f : A -> prog B) : prog B :=
  match p with
  | Ret a => f a
  | Raise e => Raise e
  | Fault e => Fault e
  | Call c k => Call c (fun r => bind (k r) f)
  end.

Definition invoke (c : call) : prog (resp c) := Call c Ret.

(** [for x in l: body(x)]. *)
Fixpoint for_each {X : Type} (l : list X) (body : X -> prog unit)
  : prog unit :=
  match l with
  | [] => Ret tt
  | x :: l' => bind (body x) (fun _ => for_each l' body)
  end.

End Script.

Arguments Ret {F A} a.
Arguments Raise {F A} e.
Arguments Fault {F A} e.
Arguments Call {F A} c k.

Declare Scope prog_scope.
Delimit Scope prog_scope with prog.
Notation "x <- p ;; q" := (bind p (fun x => q))
  (at level 61, p at next level, right associativity) : prog_scope.
Notation "p ;; q" := (bind p (fun _ => q))
  (at level 61, right associativity) : prog_scope.

(* ===================================================================== *)
(** ** main (lines 47-133) *)
(* ===================================================================== *)

Section Main.
Context {F : Framework}.
Local Open Scope prog_scope.

Definition newline : string := PyStr.str1 (Ascii.ascii_of_nat 10).

(** Lines 51-52. *)
Definition conflict_error : exn :=
  RuntimeError
    "`--to-labelme` or `--show` only can choose one at the same time.".

(** Lines 85-87. *)
Definition unknown_class_error (class_name : string) : exn :=
  RuntimeError
    ("Expected args.class_name to be one of the list, but got "
       ++ PyStr.str1 PyStr.dquote ++ class_name ++ PyStr.str1 PyStr.dquote)%string.

(** [class_name in dataset_classes] (line 82). *)
Definition contains (dataset_classes : option (list string))
    (class_name : string) : prog bool :=
  match dataset_classes with
  | None => Fault (TypeError "argument of type 'NoneType' is not iterable")
  | Some classes => Ret (existsb (String.eqb class_name) classes)
  end.

(** Lines 80-87: check class name. *)
Definition check_class_name (class_name : option (list string))
    (dataset_classes : option (list string)) : prog unit :=
  match class_name with
  | None => Ret tt
  | Some names =>
      for_each names (fun class_name =>
        known <- contains dataset_classes class_name ;;
        if known : bool then Ret tt
        else
          invoke (show_data_classes dataset_classes) ;;
          Raise (unknown_class_error class_name))
  end.

(** Lines 97-100. *)
Definition choose_filename (source_type : SourceType) (file img : string)
  : prog string :=
  if is_dir source_type then
    rel <- invoke (os_path_relpath file img) ;;
    Ret (PyStr.replace (PyStr.str1 PyStr.slash) (PyStr.str1 PyStr.underscore) rel)
  else
    Ret (OsPath.basename file).

(** Line 101. *)
Definition choose_out_file (args : Args) (filename : string)
  : option string :=
  if show args then None else Some (OsPath.join (out_dir args) filename).

(** Lines 92-125: the body of [for file in files]. *)
Definition process_file (args : Args) (model : Model)
    (visualizer : Visualizer) (fmt : LabelmeFormatT)
    (source_type : SourceType) (progress_bar : ProgressBarT)
    (file : string) : prog unit :=
  result <- invoke (inference_detector model file) ;;
  image <- invoke (imread file) ;;
  image <- invoke (imconvert image "bgr" "rgb") ;;
  filename <- choose_filename source_type file (img args) ;;
  let out_file := choose_out_file args filename in
  invoke (progress_bar_update progress_bar) ;;
  let instances := threshold (score_thr args) (pred_instances result) in
  if to_labelme args then
    match out_file with
    | None =>
        Fault (AttributeError "'NoneType' object has no attribute 'replace'")
    | Some f =>
        invoke (to_label_format fmt instances (metainfo result)
                  (labelme_out_file f) (class_name args))
    end
  else
    invoke (add_datasample visualizer filename image result
              false (show args) 0%Z out_file (score_thr args)).

(** Lines 127-133. *)
Definition report (args : Args) : prog unit :=
  if (negb (show args) && negb (to_labelme args))%bool then
    p <- invoke (os_path_abspath (out_dir args)) ;;
    invoke (print_log (newline ++ "Results have been saved at " ++ p)%string)
  else if to_labelme args then
    invoke (print_log
              (newline ++ "Labelme format label files had all been saved in "
                 ++ out_dir args)%string)
  else Ret tt.

(** Lines 47-133, [args] being what [parse_args] returned. *)
Definition main (args : Args) : prog unit :=
  if (to_labelme args && show args)%bool then Raise conflict_error
  else
    invoke register_all_modules ;;
    model <- invoke (init_detector (config args) (checkpoint args)
                       (device args)) ;;
    (if deploy args then invoke (switch_to_deploy model) else Ret tt) ;;
    (if negb (show args) then invoke (mkdir_or_exist (out_dir args))
     else Ret tt) ;;
    visualizer <- invoke (VISUALIZERS_build (cfg_visualizer model)) ;;
    invoke (set_dataset_meta visualizer (dataset_meta model)) ;;
    listing <- invoke (get_file_list (img args)) ;;
    let files := fst listing in
    let source_type := snd listing in
    let dataset_classes := dict_get "classes" (dataset_meta model) in
    fmt <- invoke (LabelmeFormat dataset_classes) ;;
    check_class_name (class_name args) dataset_classes ;;
    progress_bar <- invoke (ProgressBar (List.length files)) ;;
    for_each files
      (process_file args model visualizer fmt source_type progress_bar) ;;
    report args.

End Main.

(* ===================================================================== *)
(** ** Running the script *)
(* ===================================================================== *)

(** How a run ends: normally, in a [raise] statement of the script, in
    an error of a built-in operation, or in an exception of a call that
    nothing catches. *)
Inductive outcome (A : Type) : Type :=
| Returned (a : A)
| Raised (e : exn)
| Faulted (e : exn)
| Propagated (e : exn).

Arguments Returned {A} a.
Arguments Raised {A} e.
Arguments Faulted {A} e.
Arguments Propagated {A} e.

Section Run.
Context {F : Framework}.

(** A call that was made and how it ended. *)
Record event : Type := Ev {
  ev_call : call;
  ev_resp : exn + resp ev_call
}.

(** The world outside the script: it answers a call, knowing the calls
    made so far (latest first). *)
Definition env : Type := list event -> forall c : call, exn + resp c.

(** [run w p past]: the calls [p] makes, in order, and how it ends. *)
Fixpoint run {A : Type} (w : env) (p : prog A) (past : list event)
  : list event * outcome A :=
  match p with
  | Ret a => ([], Returned a)
  | Raise e => ([], Raised e)
  | Fault e => ([], Faulted e)
  | Call c k =>
      match w past c with
      | inl e => ([Ev c (inl e)], Propagated e)
      | inr v =>
          let (t, o) := run w (k v) (Ev c (inr v) :: past) in
          (Ev c (inr v) :: t, o)
      end
  end.

End Run.

(* ===================================================================== *)
(** ** Observing a run *)
(* ===================================================================== *)

Section Observe.
Context {F : Framework}.

Definition succeeded (ev : event) : bool :=
  match ev_resp ev with
  | inr _ => true
  | inl _ => false
  end.

Definition is_update (c : call) : bool :=
  match c with progress_bar_update _ => true | _ => false end.
Definition is_visualize (c : call) : bool :=
  match c with add_datasample _ _ _ _ _ _ _ _ _ => true | _ => false end.
Definition is_export (c : call) : bool :=
  match c with to_label_format _ _ _ _ _ => true | _ => false end.
Definition is_print_log (c : call) : bool :=
  match c with print_log _ => true | _ => false end.
Definition is_mkdir (c : call) : bool :=
  match c with mkdir_or_exist _ => true | _ => false end.

(** How many of the calls of a run are of a given kind. *)
Definition count (kind : call -> bool) (t : list event) : nat :=
  List.length (filter (fun ev => kind (ev_call ev)) t).

(** The model a successful [init_detector] returned. *)
Definition returned_model (ev : event) : option Model :=
  match ev with
  | Ev (init_detector _ _ _) (inr m) => Some m
  | _ => None
  end.

(** The calls of a run that concern progress: the listing of the
    files, the creation of the bar, the inference on a file and the
    update of the bar. *)
Inductive progress : Type :=
| Listed (files : list string)
| Created (task_num : nat)
| Inferred (file : string)
| Updated.

Definition progress_of (ev : event) : option progress :=
  match ev with
  | Ev (get_file_list _) (inr listing) => Some (Listed (fst listing))
  | Ev (ProgressBar n) _ => Some (Created n)
  | Ev (inference_detector _ file) _ => Some (Inferred file)
  | Ev (progress_bar_update _) _ => Some Updated
  | _ => None
  end.

Fixpoint progress_view (t : list event) : list progress :=
  match t with
  | [] => []
  | ev :: t' =>
      match progress_of ev with
      | Some k => k :: progress_view t'
      | None => progress_view t'
      end
  end.

(** The bar a successful [ProgressBar] returned, and the bar an update
    acts on. *)
Definition created_bar (ev : event) : option ProgressBarT :=
  match ev with
  | Ev (ProgressBar _) (inr bar) => Some bar
  | _ => None
  end.

Definition updated_bar (ev : event) : option ProgressBarT :=
  match ev with
  | Ev (progress_bar_update bar) _ => Some bar
  | _ => None
  end.

(** The progress of the loop on one file, and of a whole run on [files]. *)
Definition file_progress (file : string) : list progress :=
  [Inferred file; Updated].

Definition expected_progress (files : list string) : list progress :=
  Listed files :: Created (List.length files)
    :: flat_map file_progress files.

(** Every requested class name is a class of the model. *)
Definition names_known (class_name : option (list string))
    (dataset_classes : option (list string)) : Prop :=
  match class_name with
  | None => True
  | Some names =>
      forall c, In c names ->
                exists classes, dataset_classes = Some classes /\ In c classes
  end.

(** What is known of one image's processing, in every world. *)
Definition file_summary (args : Args) (bar : ProgressBarT) (file : string)
    (t : list event) (o : outcome unit) : Prop :=
  ((exists j, j <= 2 /\ progress_view t = firstn j (file_progress file)) /\
   forall b, In (Some b) (map updated_bar t) -> b = bar) /\
  match o with
  | Returned _ =>
      progress_view t = file_progress file /\
      forallb succeeded t = true /\ count is_update t = 1
  | Raised _ => False
  | Faulted _ => (to_labelme args && show args)%bool = true
  | Propagated _ => forallb succeeded t = false
  end.

(** What is known of the loop over [files], in every world. *)
Definition loop_summary (args : Args) (bar : ProgressBarT)
    (files : list string) (t : list event) (o : outcome unit) : Prop :=
  ((exists j, progress_view t = firstn j (flat_map file_progress files)) /\
   forall b, In (Some b) (map updated_bar t) -> b = bar) /\
  match o with
  | Returned _ =>
      progress_view t = flat_map file_progress files /\
      forallb succeeded t = true /\ count is_update t = List.length files
  | Raised _ => False
  | Faulted _ => (to_labelme args && show args)%bool = true
  | Propagated _ => forallb succeeded t = false
  end.

(** What the script's own output path may do when nothing is to be
    written: no directory creation, no export, and a visualizer call only
    without an output file. *)
Definition writes_nothing (c : call) : Prop :=
  match c with
  | mkdir_or_exist _ => False
  | to_label_format _ _ _ _ _ => False
  | add_datasample _ _ _ _ _ _ _ out_file _ => out_file = None
  | _ => True
  end.

(** [post p Q]: [Q] holds of the calls and the ending of every run of
    [p], whatever the calls answer. *)
Fixpoint post {A : Type} (p : prog A)
    (Q : list event -> outcome A -> Prop) : Prop :=
  match p with
  | Ret a => Q [] (Returned a)
  | Raise e => Q [] (Raised e)
  | Fault e => Q [] (Faulted e)
  | Call c k =>
      (forall e, Q [Ev c (inl e)] (Propagated e)) /\
      (forall v, post (k v) (fun t o => Q (Ev c (inr v) :: t) o))
  end.

(** The postcondition of [p] that makes [Q] hold after [bind p f]. *)
Definition after {A B : Type} (f : A -> prog B)
    (Q : list event -> outcome B -> Prop)
  : list event -> outcome A -> Prop :=
  fun t o =>
    match o with
    | Returned a => post (f a) (fun t' o' => Q (t ++ t') o')
    | Raised e => Q t (Raised e)
    | Faulted e => Q t (Faulted e)
    | Propagated e => Q t (Propagated e)
    end.

(** [all_calls P p]: every call [p] can ever make satisfies [P]. *)
Fixpoint all_calls {A : Type} (P : call -> Prop) (p : prog A) : Prop :=
  match p with
  | Call c k => P c /\ forall v, all_calls P (k v)
  | _ => True
  end.

(** A world in which no call fails. *)
Definition never_fails (w : env) : Prop :=
  forall past c, exists v, w past c = inr v.

(** Where the two output routines are told to write, for a file name
    [name] without separator: the visualizer gets the name and the
    [out_file] of line 101, the export routine the path of lines 111-112. *)
Definition output_under (args : Args) (c : call) : Prop :=
  match c with
  | add_datasample _ name _ _ _ _ _ out_file _ =>
      PyStr.mem_char PyStr.slash name = false /\
      out_file = choose_out_file args name
  | to_label_format _ _ _ output_path _ =>
      exists name,
        PyStr.mem_char PyStr.slash name = false /\
        output_path = labelme_out_file (OsPath.join (out_dir args) name)
  | _ => True
  end.

Definition is_inference (c : call) : bool :=
  match c with inference_detector _ _ => true | _ => false end.
Definition is_init (c : call) : bool :=
  match c with init_detector _ _ _ => true | _ => false end.
Definition is_listing (c : call) : bool :=
  match c with get_file_list _ => true | _ => false end.
Definition is_deploy (c : call) : bool :=
  match c with switch_to_deploy _ => true | _ => false end.

(** A call of one of the two output routines. *)
Definition is_output (c : call) : bool := is_visualize c || is_export c.

(** The output routine of the mode: line 109. *)
Definition mode_routine (args : Args) (c : call) : bool :=
  if to_labelme args then is_export c else is_visualize c.

(** A successful [mkdir_or_exist(dir)]. *)
Definition made_dir (dir : string) (ev : event) : bool :=
  match ev with
  | Ev (mkdir_or_exist d) (inr _) => String.eqb d dir
  | _ => false
  end.

(** A successful [switch_to_deploy]. *)
Definition deployed (ev : event) : bool :=
  is_deploy (ev_call ev) && succeeded ev.

(** The model [switch_to_deploy] was called on. *)
Definition deployed_model (c : call) : option Model :=
  match c with
  | switch_to_deploy m => Some m
  | _ => None
  end.

(** [guarded opens needs ready t]: every call of [t] that [needs] comes
    after an event that [opens] (or [ready] holds from the start). *)
Fixpoint guarded (opens : event -> bool) (needs : call -> bool)
    (ready : bool) (t : list event) : bool :=
  match t with
  | [] => true
  | ev :: t' =>
      (negb (needs (ev_call ev)) || ready)
      && guarded opens needs (ready || opens ev) t'
  end.

(** The model and the file of an inference, and the file of a read. *)
Definition inferred (c : call) : option (Model * string) :=
  match c with
  | inference_detector m file => Some (m, file)
  | _ => None
  end.

Definition read_image (c : call) : option string :=
  match c with
  | imread file => Some file
  | _ => None
  end.

(** The calls of the loop work on the loaded model and on listed files,
    and do not touch the deployment of the model. *)
Definition works_on (model : Model) (files : list string) (c : call) : Prop :=
  match c with
  | inference_detector m file => m = model /\ In file files
  | imread file => In file files
  | switch_to_deploy _ => False
  | _ => True
  end.

(** The objects and the fixed arguments of the two output routines; the
    loop builds no visualizer and no export format of its own. *)
Definition renders_with (args : Args) (visualizer : Visualizer)
    (fmt : LabelmeFormatT) (c : call) : Prop :=
  match c with
  | add_datasample v _ _ _ draw_gt sh wait_time _ _ =>
      v = visualizer /\ draw_gt = false /\ sh = show args /\ wait_time = 0%Z
  | to_label_format f _ _ _ selected_classname =>
      f = fmt /\ selected_classname = class_name args
  | VISUALIZERS_build _ => False
  | set_dataset_meta _ _ => False
  | LabelmeFormat _ => False
  | _ => True
  end.

(** What else is known of the loop over [files]. *)
Definition loop_work (args : Args) (model : Model) (visualizer : Visualizer)
    (fmt : LabelmeFormatT) (files : list string)
    (t : list event) (o : outcome unit) : Prop :=
  Forall (fun ev => works_on model files (ev_call ev)) t /\
  Forall (fun ev => renders_with args visualizer fmt (ev_call ev)) t /\
  (o = Returned tt ->
   count is_inference t = List.length files /\
   count (mode_routine args) t = List.length files).
(** The calls of the two output routines in a run, in order. *)
Definition outputs (t : list event) : list call :=
  filter is_output (map ev_call t).

(** Lines 97-100 for [file], in a run whose calls are [t]: the name is
    computed from the answer of [os.path.relpath(file, image)], or is
    the basename of [file]. *)
Definition filename_of (source_type : SourceType) (image file : string)
    (t : list event) (name : string) : Prop :=
  if is_dir source_type then
    exists rel : string,
      In (Ev (os_path_relpath file image) (inr rel)) t /\
      name = PyStr.replace (PyStr.str1 PyStr.slash)
               (PyStr.str1 PyStr.underscore) rel
  else name = OsPath.basename file.

(** [c] is the output call of lines 109-125 for [file], in a run whose
    calls are [t]: what it is handed comes from the inference on [file],
    from the image read from [file] and from the name of [file]. *)
Definition output_for (args : Args) (model : Model)
    (source_type : SourceType) (t : list event) (file : string) (c : call)
  : Prop :=
  exists (result : DataSample) (name : string),
    In (Ev (inference_detector model file) (inr result)) t /\
    filename_of source_type (img args) file t name /\
    match c with
    | add_datasample _ name' image data_sample _ _ _ out_file thr =>
        to_labelme args = false /\
        name' = name /\ data_sample = result /\
        out_file = choose_out_file args name /\ thr = score_thr args /\
        exists image0 : Image,
          In (Ev (imread file) (inr image0)) t /\
          In (Ev (imconvert image0 "bgr" "rgb") (inr image)) t
    | to_label_format _ instances meta output_path _ =>
        to_labelme args = true /\
        instances = threshold (score_thr args) (pred_instances result) /\
        meta = metainfo result /\
        output_path = labelme_out_file (OsPath.join (out_dir args) name)
    | _ => False
    end.

(** The shape of a run of the script, seen from its output calls.
    Either the run has called no output routine and has not ended
    normally; or it has loaded a model and listed files, and its output
    calls are, one each and in order, those of an initial part [done] of
    the listed files, which is all of them when the run ends normally.
    [P model source_type file c] says what the output call [c] of
    [file] is. *)
Definition outputs_per_file (args : Args) (t : list event)
    (o : outcome unit)
    (P : Model -> SourceType -> string -> call -> Prop) : Prop :=
  (outputs t = [] /\ o <> Returned tt) \/
  exists (model : Model) (listing : list string * SourceType)
         (done rest : list string),
    In (Ev (init_detector (config args) (checkpoint args) (device args))
          (inr model)) t /\
    In (Ev (get_file_list (img args)) (inr listing)) t /\
    fst listing = done ++ rest /\
    (o = Returned tt -> rest = []) /\
    Forall2 (P model (snd listing)) done (outputs t).

(** The name an output call writes under: the visualizer is handed the
    name and the [out_file] of line 101 for it, the export routine the
    path of lines 111-112 for it. *)
Definition written_as (args : Args) (c : call) (name : string) : Prop :=
  match c with
  | add_datasample _ name' _ _ _ _ _ out_file _ =>
      name' = name /\ out_file = choose_out_file args name
  | to_label_format _ _ _ output_path _ =>
      output_path = labelme_out_file (OsPath.join (out_dir args) name)
  | _ => False
  end.

(** The inference result an output call carries. *)
Definition carries (args : Args) (c : call) (result : DataSample) : Prop :=
  match c with
  | add_datasample _ _ _ data_sample _ _ _ _ _ => data_sample = result
  | to_label_format _ instances meta _ _ =>
      instances = threshold (score_thr args) (pred_instances result) /\
      meta = metainfo result
  | _ => False
  end.


End Observe.

(* ===================================================================== *)
(** ** A small concrete framework, to run the script on *)
(* ===================================================================== *)

Module Demo.

(** Scores are integers, models are their metadata, images are the paths
    they were read from, a progress bar is its task number. *)
Definition framework : Framework := {|
  Score := Z;
  score_gt := Z.gtb;
  BBox := unit;
  MetaInfo := unit;
  Image := string;
  VisualizerCfg := unit;
  Visualizer := unit;
  LabelmeFormatT := unit;
  ProgressBarT := nat;
  Model := Dict;
  cfg_visualizer := fun _ => tt;
  dataset_meta := fun m => m
|}.

#[local] Existing Instance framework.

Definition coco : Dict := [("classes", ["person"; "dog"])].

Definition detection (l : nat) (s : Z) : @Prediction framework :=
  {| bbox := tt; label := l; score := s |}.

(** Every image yields a confident and a weak detection. *)
Definition sample : @DataSample framework :=
  {| pred_instances := [detection 0 9; detection 1 2]; metainfo := tt |}.

(** A world where every call succeeds; [get_file_list] lists [files]. *)
Definition world (files : list string) (source_type : SourceType)
  : @env framework :=
  fun _ c =>
    match c return exn + @resp framework c with
    | register_all_modules => inr tt
    | init_detector _ _ _ => inr coco
    | switch_to_deploy _ => inr tt
    | mkdir_or_exist _ => inr tt
    | VISUALIZERS_build _ => inr tt
    | set_dataset_meta _ _ => inr tt
    | get_file_list _ => inr (files, source_type)
    | LabelmeFormat _ => inr tt
    | show_data_classes _ => inr tt
    | ProgressBar n => inr n
    | inference_detector _ _ => inr sample
    | imread file => inr file
    | imconvert image _ _ => inr image
    | os_path_relpath path start =>
        inr (PyStr.drop (String.length start + 1) path)
    | progress_bar_update _ => inr tt
    | to_label_format _ _ _ _ _ => inr tt
    | add_datasample _ _ _ _ _ _ _ _ _ => inr tt
    | os_path_abspath path => inr ("/work/" ++ path)%string
    | print_log _ => inr tt
    end.

Definition one_file : SourceType :=
  {| is_dir := false; is_url := false; is_file := true |}.
Definition a_dir : SourceType :=
  {| is_dir := true; is_url := false; is_file := false |}.

(** [image_demo.py IMG cfg.py ckpt.pth] with the defaults of lines 23-42
    (the threshold [0.3] of line 33 becomes [3] on the integer scale). *)
Definition defaults (image : string) : @Args framework := {|
  img := image;
  config := "cfg.py";
  checkpoint := "ckpt.pth";
  out_dir := "./output";
  device := "cuda:0";
  show := false;
  deploy := false;
  score_thr := 3%Z;
  class_name := None;
  to_labelme := false
|}.

Definition with_show (a : @Args framework) : @Args framework := {|
  img := img a; config := config a; checkpoint := checkpoint a;
  out_dir := out_dir a; device := device a; show := true;
  deploy := deploy a; score_thr := score_thr a;
  class_name := class_name a; to_labelme := to_labelme a |}.

Definition with_to_labelme (a : @Args framework) : @Args framework := {|
  img := img a; config := config a; checkpoint := checkpoint a;
  out_dir := out_dir a; device := device a; show := show a;
  deploy := deploy a; score_thr := score_thr a;
  class_name := class_name a; to_labelme := true |}.

Definition with_class_name (names : list string) (a : @Args framework)
  : @Args framework := {|
  img := img a; config := config a; checkpoint := checkpoint a;
  out_dir := out_dir a; device := device a; show := show a;
  deploy := deploy a; score_thr := score_thr a;
  class_name := Some names; to_labelme := to_labelme a |}.

Definition with_out_dir (dir : string) (a : @Args framework)
  : @Args framework := {|
  img := img a; config := config a; checkpoint := checkpoint a;
  out_dir := dir; device := device a; show := show a;
  deploy := deploy a; score_thr := score_thr a;
  class_name := class_name a; to_labelme := to_labelme a |}.

(** The command lines used below. *)
Definition conflicting : @Args framework :=
  with_show (with_to_labelme (defaults "a.jpg")).
Definition labelme_args : @Args framework := with_to_labelme (defaults "a.jpg").
Definition show_args : @Args framework := with_show (defaults "a.jpg").
Definition picky_args : @Args framework :=
  with_class_name ["dog"; "cat"] (defaults "a.jpg").
Definition odd_dir_args : @Args framework := with_out_dir "out.jpg" labelme_args.

Definition dog_args : @Args framework :=
  with_to_labelme (with_class_name ["dog"] (defaults "a.jpg")).

(** One image file, [a.jpg]. *)
Definition single : @env framework := world ["a.jpg"] one_file.

(** A directory [d] of two image files. *)
Definition folder : @env framework := world ["d/a.jpg"; "d/sub/b.jpg"] a_dir.

(** The loop body on [a.jpg] for a command line. *)
Definition one_image (a : @Args framework) : @prog framework unit :=
  process_file a coco tt tt one_file 1 "a.jpg".

End Demo.

(* ===================================================================== *)
(** ** Further command lines and worlds *)
(* ===================================================================== *)

Module Scenes.

#[local] Existing Instance Demo.framework.

Definition with_deploy (a : @Args Demo.framework) : @Args Demo.framework := {|
  img := img a; config := config a; checkpoint := checkpoint a;
  out_dir := out_dir a; device := device a; show := show a;
  deploy := true; score_thr := score_thr a;
  class_name := class_name a; to_labelme := to_labelme a |}.

(** [image_demo.py a.jpg cfg.py ckpt.pth --deploy]. *)
Definition deploy_args : @Args Demo.framework :=
  with_deploy (Demo.defaults "a.jpg").

(** [image_demo.py d cfg.py ckpt.pth] on the directory [d]. *)
Definition folder_args : @Args Demo.framework := Demo.defaults "d".

(** A model whose metadata has no entry [classes]. *)
Definition bare : Dict := [].

(** The world [Demo.single], but [init_detector] loads [bare]. *)
Definition bare_world : @env Demo.framework :=
  fun past c =>
    match c return exn + @resp Demo.framework c with
    | init_detector _ _ _ => inr bare
    | c' => Demo.single past c'
    end.

End Scenes.

Example splitext_ex1 : OsPath.splitext "./output/a.b.jpg" = ("./output/a.b", ".jpg").
Proof. reflexivity. Qed.
Example splitext_ex2 : OsPath.splitext "./out.d/.bashrc" = ("./out.d/.bashrc", EmptyString).
Proof. reflexivity. Qed.
Example replace_ex1 : PyStr.replace "ab" "X" "cababa" = "cXXa".
Proof. reflexivity. Qed.
Example replace_ex2 : PyStr.replace EmptyString "-" "abc" = "-a-b-c-".
Proof. reflexivity. Qed.
Example labelme_ex1 : labelme_out_file "./output/a.jpg" = "./output/a.json".
Proof. reflexivity. Qed.
Example join_ex1 : OsPath.join "./output" "a.jpg" = "./output/a.jpg".
Proof. reflexivity. Qed.
Example basename_ex1 : OsPath.basename "/x/y/a.jpg" = "a.jpg".
Proof. reflexivity. Qed.

Example run_default :
  map (fun ev => is_visualize (ev_call ev))
    (fst (run (Demo.world ["a.jpg"] Demo.one_file) (main (Demo.defaults "a.jpg")) []))
  = [false; false; false; false; false; false; false; false; false; false;
     false; false; true; false; false].
Proof. vm_compute. reflexivity. Qed.

(* ===================================================================== *)
(** ** Facts about the string and path helpers *)
(* ===================================================================== *)

Module PyStrFacts.
Import PyStr.
Local Open Scope string_scope.

Lemma append_empty_right (s : string) : s ++ EmptyString = s.
Proof. induction s as [|c s IH]; simpl; congruence. Qed.

Lemma take_drop (n : nat) (s : string) : take n s ++ drop n s = s.
Proof.
  revert s; induction n as [|n IH]; intros [|c s]; simpl; auto.
  now rewrite IH.
Qed.

Lemma startswith_append (p s : string) : startswith p (p ++ s) = true.
Proof.
  unfold startswith; induction p as [|c p IH]; simpl.
  - now destruct s.
  - destruct (ascii_dec c c); [exact IH | congruence].
Qed.

Lemma drop_length_append (p s : string) : drop (String.length p) (p ++ s) = s.
Proof. induction p as [|c p IH]; simpl; auto. Qed.

Lemma replace_scan_cons (a : ascii) (old' new : string) (c : ascii) (s' : string) :
  replace_scan a old' new (String c s') =
  if startswith (String a old') (String c s')
  then new ++ replace_scan a old' new (drop (String.length old') s')
  else String c (replace_scan a old' new s').
Proof.
  simp replace_scan.
  now destruct (startswith (String a old') (String c s')); simp replace_scan.
Qed.

(** The pattern occurs at the end of [root ++ p]. *)
Lemma occurrences_at_end (p root : string) : 1 <= occurrences p (root ++ p).
Proof.
  induction root as [|c root IH]; simpl.
  - pose proof (startswith_append p EmptyString) as H.
    rewrite append_empty_right in H.
    destruct p; simpl in *; [lia | rewrite H; lia].
  - rewrite Nat.add_comm. apply Nat.le_trans with (1 := IH). lia.
Qed.

Lemma occurrences_empty (s : string) :
  occurrences EmptyString s = S (String.length s).
Proof.
  induction s as [|c s IH]; simpl; auto.
Qed.

(** A pattern that occurs once, at the end: replacing every occurrence
    replaces that one. *)
Lemma replace_single_suffix (old new root : string) :
  occurrences old (root ++ old) = 1 ->
  replace old new (root ++ old) = root ++ new.
Proof.
  destruct old as [|a old'].
  - rewrite occurrences_empty, append_empty_right.
    destruct root; simpl; [reflexivity | discriminate].
  - unfold replace. induction root as [|c root IH]; intros Hocc.
    + cbn [append]. rewrite replace_scan_cons.
      pose proof (startswith_append (String a old') EmptyString) as H.
      rewrite append_empty_right in H. rewrite H.
      pose proof (drop_length_append old' EmptyString) as Hd.
      rewrite append_empty_right in Hd. rewrite Hd.
      simp replace_scan. now rewrite append_empty_right.
    + cbn [append] in *. rewrite replace_scan_cons.
      pose proof (occurrences_at_end (String a old') root) as Hend.
      cbn [occurrences] in Hocc.
      destruct (startswith (String a old') (String c (root ++ String a old'))).
      * lia.
      * f_equal. apply IH. lia.
Qed.

Lemma replace_char (c d : ascii) (s : string) :
  replace (str1 c) (str1 d) s = map_char c d s.
Proof.
  unfold replace, str1. induction s as [|a s IH].
  - now simp replace_scan.
  - rewrite replace_scan_cons. unfold startswith. cbn [prefix String.length drop map_char].
    destruct (ascii_dec c a) as [->|Hne].
    + rewrite Ascii.eqb_refl, IH. now destruct s.
    + rewrite IH. destruct (Ascii.eqb a c) eqn:E; [|reflexivity].
      apply Ascii.eqb_eq in E. congruence.
Qed.

Lemma map_char_removes (c d : ascii) (s : string) :
  c <> d -> mem_char c (map_char c d s) = false.
Proof.
  intros Hcd. induction s as [|a s IH]; simpl; auto.
  rewrite IH, orb_false_r.
  destruct (Ascii.eqb a c) eqn:E; [|exact E].
  apply Ascii.eqb_neq. congruence.
Qed.

Lemma length_map_char (c d : ascii) (s : string) :
  String.length (map_char c d s) = String.length s.
Proof. induction s as [|a s IH]; simpl; congruence. Qed.

Lemma rfind_range (c : ascii) (s : string) :
  (-1 <= rfind c s < Z.of_nat (String.length s))%Z.
Proof.
  induction s as [|a s IH]; cbn [rfind String.length]; [lia|].
  destruct (0 <=? rfind c s)%Z eqn:E; [lia|].
  destruct (Ascii.eqb a c); lia.
Qed.

(** Past the last occurrence of [c] there is no [c]. *)
Lemma drop_after_rfind (c : ascii) (s : string) :
  mem_char c (drop (Z.to_nat (rfind c s + 1)) s) = false.
Proof.
  induction s as [|a s IH]; cbn [rfind]; [reflexivity|].
  pose proof (rfind_range c s) as Hr.
  destruct (0 <=? rfind c s)%Z eqn:E.
  - apply Z.leb_le in E.
    replace (Z.to_nat (rfind c s + 1 + 1)) with (S (Z.to_nat (rfind c s + 1))) by lia.
    exact IH.
  - apply Z.leb_gt in E. assert (Hm : rfind c s = (-1)%Z) by lia.
    rewrite Hm in IH. cbn in IH.
    destruct (Ascii.eqb a c) eqn:Eac; cbn [Z.add Z.to_nat Pos.to_nat drop].
    + cbn. exact IH.
    + cbn. now rewrite Eac, IH.
Qed.

End PyStrFacts.

Module OsPathFacts.
Import PyStr OsPath PyStrFacts.
Local Open Scope string_scope.

Lemma splitext_scan_concat (p : string) (dotIndex filenameIndex : Z) (n : nat) :
  fst (splitext_scan p dotIndex filenameIndex n)
    ++ snd (splitext_scan p dotIndex filenameIndex n) = p.
Proof.
  revert filenameIndex; induction n as [|n IH]; intros fi; cbn [splitext_scan].
  - apply append_empty_right.
  - destruct (negb _); [apply take_drop | apply IH].
Qed.

(** [root + ext == p]. *)
Lemma splitext_concat (p : string) : fst (splitext p) ++ snd (splitext p) = p.
Proof.
  unfold splitext. destruct (_ <? _)%Z.
  - apply splitext_scan_concat.
  - apply append_empty_right.
Qed.

Lemma basename_no_separator (p : string) :
  mem_char slash (basename p) = false.
Proof. apply drop_after_rfind. Qed.

Lemma basename_is_suffix (p : string) :
  exists head, p = head ++ basename p.
Proof.
  exists (take (Z.to_nat (rfind slash p + 1)) p).
  unfold basename. now rewrite take_drop.
Qed.

End OsPathFacts.

(* ===================================================================== *)
(** ** More on the output paths (lines 97-101 and 111-112) *)
(* ===================================================================== *)

Module PathFacts.
Import PyStr OsPath PyStrFacts OsPathFacts.
Local Open Scope string_scope.

Lemma append_assoc (s u v : string) : (s ++ u) ++ v = s ++ (u ++ v).
Proof. induction s as [|c s IH]; simpl; congruence. Qed.

Lemma length_append (s u : string) :
  String.length (s ++ u) = String.length s + String.length u.
Proof. induction s as [|c s IH]; simpl; congruence. Qed.

Lemma rfind_absent (c : ascii) (s : string) :
  mem_char c s = false -> rfind c s = (-1)%Z.
Proof.
  induction s as [|a s IH]; cbn [mem_char rfind]; [reflexivity|].
  intros H. apply orb_false_iff in H as [Ha Hs].
  rewrite (IH Hs), Ha. reflexivity.
Qed.

Lemma rfind_negative (c : ascii) (s : string) :
  (rfind c s < 0)%Z -> mem_char c s = false.
Proof.
  induction s as [|a s IH]; cbn [mem_char rfind]; [reflexivity|].
  pose proof (rfind_range c s) as Hr.
  destruct (0 <=? rfind c s)%Z eqn:E.
  - apply Z.leb_le in E. lia.
  - apply Z.leb_gt in E. destruct (Ascii.eqb a c); [lia|].
    intros _. now rewrite IH.
Qed.

(** At the index [s.rfind(c)] stands the last [c] of [s]. *)
Lemma rfind_split (c : ascii) (s : string) :
  (0 <= rfind c s)%Z ->
  exists rest,
    drop (Z.to_nat (rfind c s)) s = String c rest /\ mem_char c rest = false.
Proof.
  induction s as [|a s IH]; cbn [rfind]; [lia|].
  pose proof (rfind_range c s) as Hr.
  destruct (0 <=? rfind c s)%Z eqn:E.
  - apply Z.leb_le in E. intros _. destruct (IH E) as (rest & Hd & Hm).
    exists rest. split; [|exact Hm].
    replace (Z.to_nat (rfind c s + 1)) with (S (Z.to_nat (rfind c s))) by lia.
    exact Hd.
  - apply Z.leb_gt in E. destruct (Ascii.eqb a c) eqn:Eac; [|lia].
    intros _. apply Ascii.eqb_eq in Eac. subst a.
    exists s. split; [reflexivity|]. apply rfind_negative. lia.
Qed.

(** Where [c] does not occur from index [n] on, [s.rfind(c)] is below [n]. *)
Lemma rfind_below (c : ascii) (s : string) (n : nat) :
  mem_char c (drop n s) = false -> (rfind c s < Z.of_nat n)%Z.
Proof.
  revert n; induction s as [|a s IH]; intros n H; [cbn [rfind]; lia|].
  destruct n as [|n].
  - cbn [drop] in H. rewrite (rfind_absent c _ H). lia.
  - cbn [drop] in H. specialize (IH n H). cbn [rfind].
    destruct (0 <=? rfind c s)%Z; [lia|]. destruct (Ascii.eqb a c); lia.
Qed.

(** The extension [os.path.splitext] returns is empty, or a dot followed
    by characters that are no dot. *)
Lemma splitext_scan_ext (p : string) (dotIndex filenameIndex : Z) (n : nat) :
  snd (splitext_scan p dotIndex filenameIndex n) = EmptyString \/
  snd (splitext_scan p dotIndex filenameIndex n) = drop (Z.to_nat dotIndex) p.
Proof.
  revert filenameIndex; induction n as [|n IH]; intros fi; cbn [splitext_scan].
  - now left.
  - destruct (negb _); [now right | apply IH].
Qed.

Lemma splitext_ext_shape (p : string) :
  snd (splitext p) = EmptyString \/
  exists rest, snd (splitext p) = String dot rest /\ mem_char dot rest = false.
Proof.
  unfold splitext. pose proof (rfind_range slash p) as Hs.
  destruct (rfind slash p <? rfind dot p)%Z eqn:E; [|now left].
  apply Z.ltb_lt in E.
  destruct (splitext_scan_ext p (rfind dot p) (rfind slash p + 1)
              (Z.to_nat (rfind dot p - (rfind slash p + 1)))) as [H|H].
  - now left.
  - right. rewrite H. apply rfind_split. lia.
Qed.

(** A path whose last component has no dot has no extension. *)
Lemma splitext_no_dot (p : string) :
  mem_char dot (basename p) = false -> splitext p = (p, EmptyString).
Proof.
  unfold basename, splitext. intros H.
  pose proof (rfind_range slash p) as Hs.
  apply rfind_below in H.
  replace (rfind slash p <? rfind dot p)%Z with false; [reflexivity|].
  symmetry. apply Z.ltb_ge. lia.
Qed.

Lemma interleave_ends (new s : string) :
  exists head, interleave new s = head ++ new.
Proof.
  induction s as [|c s [head IH]]; cbn [interleave].
  - now exists EmptyString.
  - exists (new ++ String c head). rewrite IH.
    now rewrite append_assoc.
Qed.

Lemma length_interleave (new s : string) :
  String.length (interleave new s)
  = String.length s + S (String.length s) * String.length new.
Proof.
  induction s as [|c s IH]; cbn [interleave String.length].
  - lia.
  - rewrite length_append. cbn [String.length]. rewrite IH. lia.
Qed.

Lemma drop_append_within (n : nat) (s u : string) :
  n <= String.length s -> drop n (s ++ u) = drop n s ++ u.
Proof.
  revert s; induction n as [|n IH]; intros [|c s] H; cbn in *; try lia; auto.
  apply IH. lia.
Qed.

(** A pattern that starts before the end of [r] and runs past it holds
    the character that follows [r]. *)
Lemma startswith_across (q r x : string) (a : ascii) :
  startswith q (r ++ String a x) = true ->
  String.length r < String.length q -> mem_char a q = true.
Proof.
  unfold startswith. revert q; induction r as [|c r IH]; intros [|b q] Hp Hl;
    cbn in *; try lia.
  - destruct (ascii_dec b a) as [->|]; [|discriminate].
    now rewrite Ascii.eqb_refl.
  - destruct (ascii_dec b c) as [->|]; [|discriminate].
    rewrite (IH q Hp); [apply orb_true_r | lia].
Qed.

(** Replacing every occurrence of a pattern whose first character does
    not occur again in it, in a string that ends with the pattern, gives a
    string that ends with the replacement. *)
Lemma replace_scan_ends (a : ascii) (old' new : string) (n : nat) :
  mem_char a old' = false ->
  forall root, String.length root <= n ->
    exists head,
      replace_scan a old' new (root ++ String a old') = head ++ new.
Proof.
  intros Ha. induction n as [|n IH]; intros root Hn.
  - destruct root; [|cbn in Hn; lia]. cbn [append].
    rewrite replace_scan_cons.
    pose proof (startswith_append (String a old') EmptyString) as H.
    rewrite append_empty_right in H. rewrite H.
    pose proof (drop_length_append old' EmptyString) as Hd.
    rewrite append_empty_right in Hd. rewrite Hd.
    simp replace_scan. now exists EmptyString; rewrite append_empty_right.
  - destruct root as [|c root]; [apply IH; cbn; lia|].
    cbn [append String.length] in *. rewrite replace_scan_cons.
    destruct (startswith (String a old') (String c (root ++ String a old')))
      eqn:E.
    + unfold startswith in E. cbn [prefix] in E.
      destruct (ascii_dec a c) as [->|]; [|discriminate].
      destruct (Nat.le_gt_cases (String.length old') (String.length root))
        as [Hle|Hgt].
      * rewrite (drop_append_within _ _ _ Hle).
        destruct (IH (drop (String.length old') root)) as [head Hh].
        { pose proof (length_append (take (String.length old') root)
                        (drop (String.length old') root)) as Hl.
          rewrite take_drop in Hl. lia. }
        exists (new ++ head). rewrite Hh. now rewrite append_assoc.
      * pose proof (startswith_across old' root old' c E Hgt) as Hm.
        congruence.
    + destruct (IH root) as [head Hh]; [lia|].
      exists (String c head). now rewrite Hh.
Qed.

(** [basename] undoes [join] for a name that holds no separator. *)
Lemma rfind_append_last (c : ascii) (x f : string) :
  mem_char c f = false ->
  rfind c (x ++ String c f) = Z.of_nat (String.length x).
Proof.
  intros Hf. induction x as [|a x IH]; cbn [append rfind String.length].
  - rewrite (rfind_absent c f Hf). cbn. now rewrite Ascii.eqb_refl.
  - rewrite IH. destruct (0 <=? Z.of_nat (String.length x))%Z eqn:E; [lia|].
    apply Z.leb_gt in E. lia.
Qed.

Lemma basename_after_separator (x f : string) :
  mem_char slash f = false -> basename (x ++ String slash f) = f.
Proof.
  intros Hf. unfold basename. rewrite (rfind_append_last slash x f Hf).
  replace (Z.to_nat (Z.of_nat (String.length x) + 1))
    with (String.length (x ++ str1 slash)).
  - replace (x ++ String slash f) with ((x ++ str1 slash) ++ f)
      by (rewrite append_assoc; reflexivity).
    apply drop_length_append.
  - rewrite length_append. cbn. lia.
Qed.

Lemma ends_with_char_split (c : ascii) (d : string) :
  ends_with_char c d = true -> exists x, d = x ++ str1 c.
Proof.
  induction d as [|a d IH]; cbn [ends_with_char]; [discriminate|].
  destruct d as [|b d].
  - intros H. apply Ascii.eqb_eq in H. subst. now exists EmptyString.
  - intros H. destruct (IH H) as [x Hx]. exists (String a x).
    cbn [append]. now rewrite <- Hx.
Qed.

Lemma basename_join (d f : string) :
  mem_char slash f = false -> basename (join d f) = f.
Proof.
  intros Hf. unfold join.
  assert (Hstart : startswith (str1 slash) f = false).
  { destruct f as [|a f]; [reflexivity|]. cbn [mem_char] in Hf.
    unfold startswith, str1. cbn [prefix].
    apply orb_false_iff in Hf as [Ha _].
    destruct (ascii_dec slash a) as [<-|]; [|reflexivity].
    now rewrite Ascii.eqb_refl in Ha. }
  rewrite Hstart. destruct (String.eqb d EmptyString) eqn:Ed.
  - apply String.eqb_eq in Ed. subst d. cbn [orb append].
    unfold basename. now rewrite (rfind_absent slash f Hf).
  - cbn [orb]. destruct (ends_with_char slash d) eqn:Ee.
    + destruct (ends_with_char_split slash d Ee) as [x ->].
      rewrite append_assoc. now apply basename_after_separator.
    + now apply basename_after_separator.
Qed.

Lemma map_char_idempotent (c d : ascii) (s : string) :
  c <> d -> map_char c d (map_char c d s) = map_char c d s.
Proof.
  intros Hcd. induction s as [|a s IH]; cbn [map_char]; [reflexivity|].
  rewrite IH. f_equal. destruct (Ascii.eqb a c) eqn:E; [|now rewrite E].
  destruct (Ascii.eqb d c) eqn:E'; [|reflexivity].
  apply Ascii.eqb_eq in E'. congruence.
Qed.

Lemma map_char_changes (c d : ascii) (s : string) :
  c <> d -> mem_char c s = true -> map_char c d s <> s.
Proof.
  intros Hcd. induction s as [|a s IH]; cbn [map_char mem_char]; [discriminate|].
  destruct (Ascii.eqb a c) eqn:E.
  - apply Ascii.eqb_eq in E. subst a. intros _ H. inversion H. congruence.
  - cbn [orb]. intros Hm H. inversion H. now apply IH.
Qed.

(** The part of [p] before its basename is empty or ends in a
    separator. *)
Lemma basename_head (p : string) :
  exists head : string,
    p = head ++ basename p /\
    (head = EmptyString \/ ends_with_char slash head = true).
Proof.
  exists (take (Z.to_nat (rfind slash p + 1)) p). split.
  - unfold basename. now rewrite take_drop.
  - induction p as [|a s IH]; [now left|].
    cbn [rfind]. pose proof (rfind_range slash s) as Hr.
    destruct (0 <=? rfind slash s)%Z eqn:E.
    + apply Z.leb_le in E. right.
      replace (Z.to_nat (rfind slash s + 1 + 1))
        with (S (Z.to_nat (rfind slash s + 1))) by lia.
      cbn [take]. destruct s as [|b s']; [cbn [rfind] in E; lia|].
      destruct IH as [IH|IH].
      * replace (Z.to_nat (rfind slash (String b s') + 1))
          with (S (Z.to_nat (rfind slash (String b s')))) in IH by lia.
        discriminate IH.
      * replace (Z.to_nat (rfind slash (String b s') + 1))
          with (S (Z.to_nat (rfind slash (String b s')))) in * by lia.
        cbn [take] in *. exact IH.
    + destruct (Ascii.eqb a slash) eqn:Ea.
      * right. cbn. exact Ea.
      * left. reflexivity.
Qed.

(** Where the final extension of [out_file] occurs once in the whole
    path, lines 111-112 replace the final extension. *)
Lemma labelme_out_file_single (out_file : string) :
  occurrences (snd (splitext out_file)) out_file = 1 ->
  labelme_out_file out_file = fst (splitext out_file) ++ ".json".
Proof.
  intros Hocc. unfold labelme_out_file.
  pose proof (splitext_concat out_file) as Hcat.
  destruct (splitext out_file) as [root ext]; cbn [fst snd] in *.
  subst out_file. now apply replace_single_suffix.
Qed.

End PathFacts.

(* ===================================================================== *)
(** ** Reasoning about runs *)
(* ===================================================================== *)

(** Walks through every way a script of straight-line calls can go. *)
Ltac walk :=
  repeat (cbn [post bind invoke];
          match goal with
          | |- _ /\ _ => split
          | |- forall _, _ => intro
          end).

(** An explicit non-empty list without its last element. *)
Ltac all_but_last l :=
  lazymatch l with
  | [?x] => let T := type of x in constr:(@nil T)
  | ?x :: ?l' => let r := all_but_last l' in constr:(x :: r)
  end.

(** Puts a membership in an explicit list of calls into its cases. *)
Ltac pick_event H :=
  repeat (destruct H as [H|H]; [subst|]); try contradiction.

Section RunFacts.
Context {F : Framework}.

Lemma post_run {A : Type} (p : prog A) (Q : list event -> outcome A -> Prop) :
  post p Q ->
  forall (w : env) (past t : list event) (o : outcome A),
    run w p past = (t, o) -> Q t o.
Proof.
  revert Q; induction p as [a|e|e|c k IH]; intros Q H w past t o Hrun;
    cbn [run post] in *.
  1-3: now inversion Hrun; subst.
  destruct H as [Hfail Hok].
  destruct (w past c) as [e|v].
  - inversion Hrun; subst. apply Hfail.
  - destruct (run w (k v) (Ev c (inr v) :: past)) as [t' o'] eqn:E.
    inversion Hrun; subst.
    exact (IH v _ (Hok v) w _ _ _ E).
Qed.

Lemma post_mono {A : Type} (p : prog A) (Q Q' : list event -> outcome A -> Prop) :
  (forall t o, Q t o -> Q' t o) -> post p Q -> post p Q'.
Proof.
  revert Q Q'; induction p as [a|e|e|c k IH]; intros Q Q' HQ H;
    cbn [post] in *; auto.
  destruct H as [Hfail Hok]. split; [auto|].
  intros v. apply (IH v) with (2 := Hok v). auto.
Qed.

Lemma post_bind {A B : Type} (p : prog A) (f : A -> prog B)
    (Q : list event -> outcome B -> Prop) :
  post p (after f Q) -> post (bind p f) Q.
Proof.
  revert Q; induction p as [a|e|e|c k IH]; intros Q H; cbn [post bind] in *.
  1-3: exact H.
  destruct H as [Hfail Hok]. split; [exact Hfail|].
  intros v. apply IH. exact (Hok v).
Qed.

(** The loop rule: [I rest t] holds when the files [rest] are still to
    be processed and the loop has made the calls [t]. *)
Lemma post_for_each {X : Type} (body : X -> prog unit)
    (Q : list event -> outcome unit -> Prop)
    (I : list X -> list event -> Prop) (l : list X) :
  I l [] ->
  (forall x rest t, I (x :: rest) t ->
     post (body x) (fun t' o' =>
       match o' with
       | Returned _ => I rest (t ++ t')
       | Raised e => Q (t ++ t') (Raised e)
       | Faulted e => Q (t ++ t') (Faulted e)
       | Propagated e => Q (t ++ t') (Propagated e)
       end)) ->
  (forall t, I [] t -> Q t (Returned tt)) ->
  post (for_each l body) Q.
Proof.
  revert Q I; induction l as [|x l IH]; intros Q I Hinit Hstep Hdone;
    cbn [for_each].
  - cbn [post]. auto.
  - apply post_bind.
    apply post_mono with (2 := Hstep x l [] Hinit).
    intros t [[]|e|e|e]; cbn [after app]; auto.
    intros Hrest.
    apply IH with (I := fun rest t' => I rest (t ++ t')).
    + now rewrite app_nil_r.
    + intros y rest t' Hy.
      apply post_mono with (2 := Hstep y rest (t ++ t') Hy).
      intros t'' o''. rewrite app_assoc. auto.
    + intros t' Ht'. auto.
Qed.



(** In a world where no call fails, no run ends in a propagated exception. *)
Lemma run_never_fails {A : Type} (w : env) (p : prog A)
    (past t : list event) (o : outcome A) :
  never_fails w -> run w p past = (t, o) ->
  (forall e, o <> Propagated e) /\ Forall (fun ev => succeeded ev = true) t.
Proof.
  intros Hw. revert past t o; induction p as [a|e0|e0|c k IH];
    intros past t o Hrun; cbn [run] in Hrun.
  1-3: inversion Hrun; subst; split; [discriminate | constructor].
  destruct (Hw past c) as [v Hv]. rewrite Hv in Hrun.
  destruct (run w (k v) (Ev c (inr v) :: past)) as [t' o'] eqn:E.
  inversion Hrun; subst.
  destruct (IH v _ _ _ E) as [H1 H2]. split; [exact H1|].
  constructor; [reflexivity | exact H2].
Qed.

Lemma existsb_eqb_In (c : string) (l : list string) :
  existsb (String.eqb c) l = true <-> In c l.
Proof.
  rewrite existsb_exists. split.
  - intros (x & Hin & Heq). apply String.eqb_eq in Heq. now subst.
  - intros Hin. exists c. split; [exact Hin | apply String.eqb_refl].
Qed.

Lemma check_class_name_known (names classes : list string) :
  Forall (fun c => In c classes) names ->
  check_class_name (Some names) (Some classes) = Ret tt.
Proof.
  cbn [check_class_name]. induction 1 as [|c names Hc _ IH]; cbn [for_each].
  - reflexivity.
  - cbn [contains bind]. apply existsb_eqb_In in Hc. now rewrite Hc.
Qed.

Lemma check_class_name_unknown (known rest classes : list string) (c : string) :
  Forall (fun k => In k classes) known -> ~ In c classes ->
  check_class_name (Some (known ++ c :: rest)) (Some classes) =
  Call (show_data_classes (Some classes))
    (fun _ => Raise (unknown_class_error c)).
Proof.
  intros Hknown Hc. cbn [check_class_name].
  induction Hknown as [|k known Hk _ IH]; cbn [for_each app contains bind].
  - destruct (existsb (String.eqb c) classes) eqn:E.
    + apply existsb_eqb_In in E. contradiction.
    + reflexivity.
  - apply existsb_eqb_In in Hk. rewrite Hk. exact IH.
Qed.

(** The first name of a list that is not a class. *)
Lemma first_unknown (names classes : list string) :
  Exists (fun c => ~ In c classes) names ->
  exists known c rest,
    names = known ++ c :: rest /\
    Forall (fun k => In k classes) known /\ ~ In c classes.
Proof.
  induction names as [|n names IH]; intros Hex.
  - inversion Hex.
  - destruct (in_dec string_dec n classes) as [Hin|Hnot].
    + inversion Hex as [? ? Hn|? ? Hrest]; subst; [contradiction|].
      destruct (IH Hrest) as (known & c & rest & -> & Hk & Hc).
      exists (n :: known), c, rest. repeat split; auto.
    + exists [], n, names. repeat split; auto.
Qed.

Lemma all_calls_bind {A B : Type} (P : call -> Prop) (p : prog A)
    (f : A -> prog B) :
  all_calls P p -> (forall a, all_calls P (f a)) -> all_calls P (bind p f).
Proof.
  intros Hp Hf. induction p as [a|e|e|c k IH]; cbn [bind all_calls] in *; auto.
  destruct Hp as [Hc Hk]. split; auto.
Qed.

Lemma all_calls_for_each {X : Type} (P : call -> Prop) (l : list X)
    (body : X -> prog unit) :
  (forall x, all_calls P (body x)) -> all_calls P (for_each l body).
Proof.
  intros Hbody. induction l as [|x l IH]; cbn [for_each all_calls]; auto.
  apply all_calls_bind; auto.
Qed.

Lemma all_calls_run {A : Type} (P : call -> Prop) (p : prog A) :
  all_calls P p ->
  forall (w : env) (past t : list event) (o : outcome A),
    run w p past = (t, o) -> Forall (fun ev => P (ev_call ev)) t.
Proof.
  induction p as [a|e|e|c k IH]; intros Hp w past t o Hrun; cbn [run] in Hrun.
  1-3: inversion Hrun; constructor.
  destruct Hp as [Hc Hk]. destruct (w past c) as [e|v].
  - inversion Hrun; subst. repeat constructor. exact Hc.
  - destruct (run w (k v) (Ev c (inr v) :: past)) as [t' o'] eqn:E.
    inversion Hrun; subst. constructor; [exact Hc|].
    exact (IH v (Hk v) w _ _ _ E).
Qed.

Lemma all_calls_check_class_name (P : call -> Prop)
    (names dataset_classes : option (list string)) :
  P (show_data_classes dataset_classes) ->
  all_calls P (check_class_name names dataset_classes).
Proof.
  intros HP. destruct names as [names|]; cbn [check_class_name all_calls]; auto.
  apply all_calls_for_each. intros c.
  destruct dataset_classes as [classes|]; cbn [contains bind all_calls]; auto.
  destruct (existsb _ _); cbn [bind invoke all_calls]; auto.
Qed.

Lemma progress_view_app (t1 t2 : list event) :
  progress_view (t1 ++ t2) = progress_view t1 ++ progress_view t2.
Proof.
  induction t1 as [|ev t1 IH]; cbn [progress_view app]; auto.
  destruct (progress_of ev); cbn [app]; congruence.
Qed.

Lemma count_cons (kind : call -> bool) (ev : event) (t : list event) :
  count kind (ev :: t)
  = (if kind (ev_call ev) then 1 else 0) + count kind t.
Proof. unfold count. cbn [filter]. now destruct (kind (ev_call ev)). Qed.

Lemma count_app (kind : call -> bool) (t1 t2 : list event) :
  count kind (t1 ++ t2) = count kind t1 + count kind t2.
Proof. unfold count. now rewrite filter_app, length_app. Qed.

(** The class-name check ends in one of three ways. *)
Lemma post_check_class_name (class_name dataset_classes : option (list string))
    (Q : list event -> outcome unit -> Prop) :
  (names_known class_name dataset_classes -> Q [] (Returned tt)) ->
  (forall c rest, class_name = Some (c :: rest) -> dataset_classes = None ->
     Q [] (Faulted (TypeError "argument of type 'NoneType' is not iterable"))) ->
  (forall known c rest classes,
     class_name = Some (known ++ c :: rest) ->
     dataset_classes = Some classes ->
     Forall (fun k => In k classes) known -> ~ In c classes ->
     (forall e, Q [Ev (show_data_classes dataset_classes) (inl e)]
                  (Propagated e)) /\
     (forall v, Q [Ev (show_data_classes dataset_classes) (inr v)]
                  (Raised (unknown_class_error c)))) ->
  post (check_class_name class_name dataset_classes) Q.
Proof.
  intros Hknown Hfault Hunknown.
  destruct class_name as [names|]; [|apply Hknown; exact I].
  destruct dataset_classes as [classes|].
  - destruct (Forall_Exists_dec (fun c => In c classes)
                (fun c => in_dec string_dec c classes) names) as [Hall|Hex].
    + rewrite (check_class_name_known names classes Hall). cbn [post].
      apply Hknown. intros c Hc. exists classes. split; [reflexivity|].
      rewrite Forall_forall in Hall. auto.
    + destruct (first_unknown names classes Hex)
        as (known & c & rest & -> & Hk & Hc).
      rewrite (check_class_name_unknown known rest classes c Hk Hc).
      cbn [post]. apply (Hunknown known c rest classes); auto.
  - destruct names as [|c rest]; cbn [check_class_name for_each contains bind post].
    + apply Hknown. intros c [].
    + apply (Hfault c rest); reflexivity.
Qed.

Lemma post_process_file (args : Args) (model : Model)
    (visualizer : Visualizer) (fmt : LabelmeFormatT)
    (source_type : SourceType) (bar : ProgressBarT) (file : string) :
  post (process_file args model visualizer fmt source_type bar file)
    (file_summary args bar file).
Proof.
  unfold process_file, choose_filename, choose_out_file, file_summary.
  destruct (is_dir source_type), (to_labelme args), (show args).
  all: walk.
  all: try reflexivity.
  all: try match goal with
           | H : In (Some _) (map updated_bar _) |- _ =>
               cbn [map updated_bar In] in H; pick_event H;
               try discriminate; congruence
           end.
  all: first [ exists 0; split; [lia | reflexivity]
             | exists 1; split; [lia | reflexivity]
             | exists 2; split; [lia | reflexivity] ].
Qed.

Lemma firstn_within {X : Type} (j : nat) (l1 l2 : list X) :
  j <= List.length l1 -> firstn j (l1 ++ l2) = firstn j l1.
Proof.
  intros Hj. rewrite firstn_app.
  replace (j - List.length l1) with 0 by lia. cbn [firstn]. apply app_nil_r.
Qed.

Lemma post_loop (args : Args) (model : Model)
    (visualizer : Visualizer) (fmt : LabelmeFormatT)
    (source_type : SourceType) (bar : ProgressBarT) (files : list string) :
  post (for_each files
          (process_file args model visualizer fmt source_type bar))
    (loop_summary args bar files).
Proof.
  apply post_for_each with
    (I := fun rest t =>
            exists done, files = done ++ rest /\
              progress_view t = flat_map file_progress done /\
              (forall b, In (Some b) (map updated_bar t) -> b = bar) /\
              forallb succeeded t = true /\
              count is_update t = List.length done).
  - exists []. repeat split; try reflexivity. intros b [].
  - intros file rest t (done & -> & Hview & Hbar & Hok & Hupd).
    apply post_mono with (2 := post_process_file args model visualizer fmt
                                 source_type bar file).
    intros t' o' [[(j & Hj & Hpre) Hbar'] Hend].
    assert (Hprefix : exists j',
               progress_view (t ++ t')
               = firstn j' (flat_map file_progress (done ++ file :: rest))).
    { exists (List.length (flat_map file_progress done) + j).
      rewrite progress_view_app, Hview, Hpre, flat_map_app.
      rewrite firstn_app_2. f_equal. cbn [flat_map].
      symmetry. apply firstn_within. exact Hj. }
    assert (Hbars : forall b, In (Some b) (map updated_bar (t ++ t')) ->
                              b = bar).
    { intros b Hb. rewrite map_app in Hb.
      apply in_app_or in Hb as [Hb|Hb]; auto. }
    unfold loop_summary. destruct o' as [[]|e|e|e].
    + destruct Hend as (Hfile & Hok' & Hupd').
      exists (done ++ [file]). rewrite <- app_assoc. split; [reflexivity|].
      rewrite progress_view_app, flat_map_app, forallb_app, count_app,
        length_app, Hview, Hfile, Hok, Hok', Hupd, Hupd'.
      cbn [flat_map List.length]. rewrite app_nil_r. auto.
    + contradiction.
    + repeat split; assumption.
    + repeat split; try assumption.
      rewrite forallb_app, Hend. apply andb_false_r.
  - intros t (done & Hfiles & Hview & Hbar & Hok & Hupd).
    rewrite app_nil_r in Hfiles. subst done. unfold loop_summary.
    split; [split; [|exact Hbar]|auto].
    exists (List.length (flat_map file_progress files)).
    rewrite Hview. symmetry. apply firstn_all.
Qed.

(** Lines 80-133, from the class-name check to the end: how a run can
    go, given what is known of the loop. *)
Lemma post_main_tail (args : Args) (model : Model)
    (visualizer : Visualizer) (fmt : LabelmeFormatT)
    (files : list string) (source_type : SourceType)
    (Q : list event -> outcome unit -> Prop) :
  let dataset_classes := dict_get "classes" (dataset_meta model) in
  let create := ProgressBar (List.length files) in
  (forall c rest, class_name args = Some (c :: rest) ->
     dataset_classes = None ->
     Q [] (Faulted (TypeError "argument of type 'NoneType' is not iterable"))) ->
  (forall known c rest classes,
     class_name args = Some (known ++ c :: rest) ->
     dataset_classes = Some classes ->
     Forall (fun k => In k classes) known -> ~ In c classes ->
     (forall e, Q [Ev (show_data_classes dataset_classes) (inl e)]
                  (Propagated e)) /\
     (forall v, Q [Ev (show_data_classes dataset_classes) (inr v)]
                  (Raised (unknown_class_error c)))) ->
  (names_known (class_name args) dataset_classes ->
   (forall e, Q [Ev create (inl e)] (Propagated e)) /\
   (forall bar tl o,
      loop_summary args bar files tl o -> (forall a, o <> Returned a) ->
      Q (Ev create (inr bar) :: tl) o) /\
   (forall bar tl,
      loop_summary args bar files tl (Returned tt) ->
      post (report args)
        (fun tr o => Q (Ev create (inr bar) :: tl ++ tr) o))) ->
  post
    (bind (check_class_name (class_name args) dataset_classes) (fun _ =>
     bind (invoke create) (fun progress_bar =>
     bind (for_each files
             (process_file args model visualizer fmt source_type
                progress_bar)) (fun _ =>
     report args)))) Q.
Proof.
  intros dataset_classes create Hfault Hunknown Hknown.
  apply post_bind. apply post_check_class_name.
  - intros Hk. destruct (Hknown Hk) as (Hcreate & Hstop & Hreport).
    cbn [after app]. walk; [apply Hcreate|].
    apply post_bind.
    apply post_mono with (2 := post_loop args model visualizer fmt
                                 source_type v files).
    intros tl [[]|e|e|e] Hsum; cbn [after].
    + apply Hreport. exact Hsum.
    + apply Hstop; [exact Hsum | discriminate].
    + apply Hstop; [exact Hsum | discriminate].
    + apply Hstop; [exact Hsum | discriminate].
  - intros c rest Hc Hd. cbn [after]. eapply Hfault; eauto.
  - intros known c rest classes Hc Hd Hk Hn. cbn [after].
    apply (Hunknown known c rest classes); auto.
Qed.

Lemma count_none (kind : call -> bool) (t : list event) :
  Forall (fun ev => kind (ev_call ev) = false) t -> count kind t = 0.
Proof.
  induction 1 as [|ev t Hev _ IH]; [reflexivity|].
  now rewrite count_cons, Hev, IH.
Qed.

Lemma known_not_unknown (names classes : list string) :
  names_known (Some names) (Some classes) ->
  Exists (fun c => ~ In c classes) names -> False.
Proof.
  intros Hknown Hex. apply Exists_exists in Hex as (c & Hin & Hnot).
  destruct (Hknown c Hin) as (classes' & Heq & Hc).
  inversion Heq; subst. contradiction.
Qed.


End RunFacts.

(* ===================================================================== *)
(** ** The output calls of a run *)
(* ===================================================================== *)

Section OutputFacts.
Context {F : Framework}.

Lemma post_conj {A : Type} (p : prog A)
    (Q1 Q2 : list event -> outcome A -> Prop) :
  post p Q1 -> post p Q2 -> post p (fun t o => Q1 t o /\ Q2 t o).
Proof.
  revert Q1 Q2; induction p as [a|e|e|c k IH]; intros Q1 Q2 H1 H2;
    cbn [post] in *; auto.
  destruct H1 as [F1 S1], H2 as [F2 S2]. split; [auto|].
  intros v. exact (IH v _ _ (S1 v) (S2 v)).
Qed.

Lemma outputs_app (t1 t2 : list event) :
  outputs (t1 ++ t2) = outputs t1 ++ outputs t2.
Proof. unfold outputs. now rewrite map_app, filter_app. Qed.

Lemma outputs_cons (ev : event) (t : list event) :
  outputs (ev :: t)
  = if is_output (ev_call ev) then ev_call ev :: outputs t else outputs t.
Proof. reflexivity. Qed.

Lemma filename_of_mono (source_type : SourceType) (image file : string)
    (t t' : list event) (name : string) :
  incl t t' ->
  filename_of source_type image file t name ->
  filename_of source_type image file t' name.
Proof.
  unfold filename_of. intros Hincl. destruct (is_dir source_type); auto.
  intros (rel & Hrel & Hname). exists rel. auto.
Qed.

Lemma output_for_mono (args : Args) (model : Model)
    (source_type : SourceType) (t t' : list event) (file : string)
    (c : call) :
  incl t t' ->
  output_for args model source_type t file c ->
  output_for args model source_type t' file c.
Proof.
  intros Hincl (result & name & Hres & Hname & Hc).
  exists result, name. split; [auto|].
  split; [eapply filename_of_mono; eauto|].
  destruct c; auto.
  destruct Hc as (Hl & Hn & Hd & Ho & Ht & image0 & Hread & Hconv).
  repeat split; auto. exists image0. auto.
Qed.

(** Lines 92-125: the one output call of a file, its last call. *)
Lemma post_process_file_output (args : Args) (model : Model)
    (visualizer : Visualizer) (fmt : LabelmeFormatT)
    (source_type : SourceType) (bar : ProgressBarT) (file : string) :
  post (process_file args model visualizer fmt source_type bar file)
    (fun t o =>
       (outputs t = [] /\ o <> Returned tt) \/
       exists c, outputs t = [c] /\
                 output_for args model source_type t file c).
Proof.
  unfold process_file, choose_filename.
  destruct (is_dir source_type) eqn:Hd, (to_labelme args) eqn:Hl,
    (show args) eqn:Hs.
  all: unfold choose_out_file; rewrite ?Hs.
  all: walk.
  all: try (left; split; [reflexivity | discriminate]).
  all: right; eexists; split; [reflexivity|].
  all: match goal with
       | result : resp (inference_detector _ _) |- _ =>
           exists result; eexists; split; [cbn [In]; auto 20|]
       end.
  all: (split; [unfold filename_of; rewrite Hd;
                first [ reflexivity
                      | eexists; split; [cbn [In]; auto 20 | reflexivity] ]|]).
  all: cbn [ev_call]; unfold choose_out_file; rewrite ?Hs.
  all: repeat split; auto.
  all: match goal with
       | image0 : resp (imread _) |- _ =>
           exists image0; split; cbn [In]; auto 20
       end.
Qed.

(** Lines 91-125: the output calls of the loop are those of the files
    it has got to, one each and in order. *)
Lemma post_loop_output (args : Args) (model : Model)
    (visualizer : Visualizer) (fmt : LabelmeFormatT)
    (source_type : SourceType) (bar : ProgressBarT) (files : list string) :
  post (for_each files
          (process_file args model visualizer fmt source_type bar))
    (fun t o =>
       exists done rest,
         files = done ++ rest /\
         (o = Returned tt -> rest = []) /\
         Forall2 (output_for args model source_type t) done (outputs t)).
Proof.
  apply post_for_each with
    (I := fun rest t =>
            exists done, files = done ++ rest /\
              Forall2 (output_for args model source_type t) done
                (outputs t)).
  - exists []. split; [reflexivity | constructor].
  - intros file rest t (done & -> & Hdone).
    apply post_mono with (2 := post_process_file_output args model
                                 visualizer fmt source_type bar file).
    intros t' o' Hfile.
    assert (Hsofar : Forall2 (output_for args model source_type (t ++ t'))
                       done (outputs t)).
    { revert Hdone. apply Forall2_impl. intros f c.
      apply output_for_mono. apply incl_appl, incl_refl. }
    destruct Hfile as [[Hnone Hne]|(c & Hone & Hc)].
    + assert (Hstop : exists done0 rest0,
                 done ++ file :: rest = done0 ++ rest0 /\
                 Forall2 (output_for args model source_type (t ++ t'))
                   done0 (outputs (t ++ t'))).
      { exists done, (file :: rest). split; [reflexivity|].
        now rewrite outputs_app, Hnone, app_nil_r. }
      destruct Hstop as (done0 & rest0 & Hsplit & Hall).
      destruct o' as [[]|e|e|e]; [now destruct Hne| | |];
        exists done0, rest0; repeat split; auto; discriminate.
    + assert (Hnext : Forall2 (output_for args model source_type (t ++ t'))
                        (done ++ [file]) (outputs (t ++ t'))).
      { rewrite outputs_app, Hone. apply Forall2_app; [exact Hsofar|].
        constructor; [|constructor].
        revert Hc. apply output_for_mono. apply incl_appr, incl_refl. }
      destruct o' as [[]|e|e|e].
      * exists (done ++ [file]). now rewrite <- app_assoc.
      * exists (done ++ [file]), rest. rewrite <- app_assoc.
        repeat split; auto; discriminate.
      * exists (done ++ [file]), rest. rewrite <- app_assoc.
        repeat split; auto; discriminate.
      * exists (done ++ [file]), rest. rewrite <- app_assoc.
        repeat split; auto; discriminate.
  - intros t (done & Hfiles & Hdone). exists done, [].
    repeat split; auto.
Qed.

(** Lines 80-133 again, with a further fact [L] about the loop. *)
Lemma post_main_tail_with (L : list event -> outcome unit -> Prop)
    (args : Args) (model : Model)
    (visualizer : Visualizer) (fmt : LabelmeFormatT)
    (files : list string) (source_type : SourceType)
    (Q : list event -> outcome unit -> Prop) :
  let dataset_classes := dict_get "classes" (dataset_meta model) in
  let create := ProgressBar (List.length files) in
  (forall bar,
     post (for_each files
             (process_file args model visualizer fmt source_type bar)) L) ->
  (forall c rest, class_name args = Some (c :: rest) ->
     dataset_classes = None ->
     Q [] (Faulted (TypeError "argument of type 'NoneType' is not iterable"))) ->
  (forall known c rest classes,
     class_name args = Some (known ++ c :: rest) ->
     dataset_classes = Some classes ->
     Forall (fun k => In k classes) known -> ~ In c classes ->
     (forall e, Q [Ev (show_data_classes dataset_classes) (inl e)]
                  (Propagated e)) /\
     (forall v, Q [Ev (show_data_classes dataset_classes) (inr v)]
                  (Raised (unknown_class_error c)))) ->
  (names_known (class_name args) dataset_classes ->
   (forall e, Q [Ev create (inl e)] (Propagated e)) /\
   (forall bar tl o,
      loop_summary args bar files tl o -> L tl o ->
      (forall a, o <> Returned a) ->
      Q (Ev create (inr bar) :: tl) o) /\
   (forall bar tl,
      loop_summary args bar files tl (Returned tt) -> L tl (Returned tt) ->
      post (report args)
        (fun tr o => Q (Ev create (inr bar) :: tl ++ tr) o))) ->
  post
    (bind (check_class_name (class_name args) dataset_classes) (fun _ =>
     bind (invoke create) (fun progress_bar =>
     bind (for_each files
             (process_file args model visualizer fmt source_type
                progress_bar)) (fun _ =>
     report args)))) Q.
Proof.
  intros dataset_classes create Hloop Hfault Hunknown Hknown.
  apply post_bind. apply post_check_class_name.
  - intros Hk. destruct (Hknown Hk) as (Hcreate & Hstop & Hreport).
    cbn [after app]. walk; [apply Hcreate|].
    apply post_bind.
    apply post_mono with
      (2 := post_conj _ _ _
              (post_loop args model visualizer fmt source_type v files)
              (Hloop v)).
    intros tl [[]|e|e|e] [Hsum Hwork]; cbn [after].
    + apply Hreport; assumption.
    + apply Hstop; [assumption | assumption | discriminate].
    + apply Hstop; [assumption | assumption | discriminate].
    + apply Hstop; [assumption | assumption | discriminate].
  - intros c rest Hc Hd. cbn [after]. eapply Hfault; eauto.
  - intros known c rest classes Hc Hd Hk Hn. cbn [after].
    apply (Hunknown known c rest classes); auto.
Qed.

Lemma outputs_per_file_impl (args : Args) (t : list event)
    (o : outcome unit)
    (P P' : Model -> SourceType -> string -> call -> Prop) :
  (forall model source_type file c,
     P model source_type file c -> P' model source_type file c) ->
  outputs_per_file args t o P -> outputs_per_file args t o P'.
Proof.
  intros Himpl [Hnone|(model & listing & done & rest & Hm & Hl & Hf & Ho & Hall)];
    [now left|right].
  exists model, listing, done, rest. repeat split; auto.
  revert Hall. apply Forall2_impl. apply Himpl.
Qed.

(** The output calls of any run of the script. *)
Lemma main_outputs (w : env) (args : Args) (past t : list event)
    (o : outcome unit) :
  run w (main args) past = (t, o) ->
  outputs_per_file args t o
    (fun model source_type => output_for args model source_type t).
Proof.
  intros Hrun. pattern t, o.
  match goal with
  | |- ?Q t o => refine (post_run _ Q _ w past t o Hrun)
  end.
  clear Hrun. unfold main.
  destruct (to_labelme args) eqn:Hl, (show args) eqn:Hs, (deploy args);
    cbn [andb negb].
  all: walk.
  all: try (left; split; [reflexivity | discriminate]).
  all: match goal with
       | model : resp (init_detector _ _ _),
         listing : resp (get_file_list _) |- _ =>
           apply (post_main_tail_with
                    (fun tl o' =>
                       exists done rest,
                         fst listing = done ++ rest /\
                         (o' = Returned tt -> rest = []) /\
                         Forall2 (output_for args model (snd listing) tl)
                           done (outputs tl)));
           [ intros bar; apply post_loop_output
           | intros c rest Hc Hd
           | intros known c rest classes Hc Hd Hk Hn; split;
             [intros e|intros v']
           | intros _; split; [|split];
             [ intros e
             | intros bar tl o' _ (done & rest & Hsplit & Hend & Hall) _
             | intros bar tl _ (done & rest & Hsplit & Hend & Hall);
               unfold report; rewrite Hl, Hs; cbn [andb negb]; walk ] ]
       end.
  all: try (left; split; [reflexivity | discriminate]).
  all: right.
  all: match goal with
       | model : resp (init_detector _ _ _),
         listing : resp (get_file_list _) |- _ =>
           exists model, listing, done, rest
       end.
  all: (split; [cbn [In]; auto 20|]).
  all: (split; [cbn [In]; auto 20|]).
  all: (split; [assumption|]).
  all: (split; [first [exact Hend | intros _; exact (Hend eq_refl)]|]).
  all: repeat (rewrite outputs_cons; cbn [is_output is_visualize is_export
                                          ev_call orb]).
  all: rewrite ?outputs_app; cbn [outputs map filter is_output is_visualize
                                    is_export ev_call orb];
    rewrite ?app_nil_r.
  all: revert Hall; apply Forall2_impl; intros f c; apply output_for_mono.
  all: repeat apply incl_tl.
  all: try apply incl_refl.
  all: apply incl_appl, incl_refl.
Qed.

End OutputFacts.

(** The same for a property of every call. *)
Ltac calls_walk :=
  repeat (cbn [all_calls bind invoke andb negb writes_nothing is_print_log
               is_visualize is_export];
          match goal with
          | |- True => exact I
          | |- _ = _ => reflexivity
          | |- _ /\ _ => split
          | |- forall _, _ => intro
          | |- all_calls _ (bind (check_class_name _ _) _) =>
              apply all_calls_bind
          | |- all_calls _ (bind (for_each _ _) _) => apply all_calls_bind
          | |- all_calls _ (check_class_name _ _) =>
              apply all_calls_check_class_name
          | |- all_calls _ (for_each _ _) => apply all_calls_for_each
          end).



(* ===================================================================== *)
(** ** The claims *)
(* ===================================================================== *)

Section Claims.
Context {F : Framework}.

(** C1. With both [--show] and [--to-labelme] set the script is the
    [raise] of lines 51-52 and nothing else: every run ends in that
    error without having made a single call, so no module is
    registered, no model loaded, no file listed, no inference run and
    no output produced. *)
Theorem C1_conflicting_flags_fail_first (args : Args) :
  to_labelme args = true -> show args = true ->
  main args = Raise conflict_error /\
  forall (w : env) (past : list event),
    run w (main args) past = ([], Raised conflict_error).
Proof.
  intros Hl Hs. assert (Hmain : main args = Raise conflict_error).
  { unfold main. now rewrite Hl, Hs. }
  split; [exact Hmain|]. intros w past. now rewrite Hmain.
Qed.

(** C2. In a run with the two flags not both set and [--class-name]
    given, in which no call fails: if some requested name is not a class
    of the loaded model, the run ends in the [raise] of lines 85-87, a
    [RuntimeError] whose message ends in the first requested name that
    is not a class, between double quotes, and its
    last call, just before, is the one that prints the model's classes.
    If every requested name is a class of the loaded model, no run ends
    in a [raise] of the script, whatever the calls answer. *)
Theorem C2_unknown_class_name (w : env) (args : Args)
    (past t : list event) (o : outcome unit) (names : list string) :
  run w (main args) past = (t, o) ->
  (to_labelme args && show args)%bool = false ->
  class_name args = Some names ->
  ((forall model, In (Some model) (map returned_model t) ->
      exists classes,
        dict_get "classes" (dataset_meta model) = Some classes /\
        Exists (fun c => ~ In c classes) names) ->
   forallb succeeded t = true ->
   exists model classes known c rest t' v,
     In (Some model) (map returned_model t) /\
     dict_get "classes" (dataset_meta model) = Some classes /\
     names = known ++ c :: rest /\
     Forall (fun k => In k classes) known /\ ~ In c classes /\
     o = Raised (RuntimeError
                    ("Expected args.class_name to be one of the list, but got "
                       ++ PyStr.str1 PyStr.dquote ++ c
                       ++ PyStr.str1 PyStr.dquote)%string) /\
     t = t' ++ [Ev (show_data_classes
                      (dict_get "classes" (dataset_meta model)))
                  (inr v)]) /\
  ((forall model, In (Some model) (map returned_model t) ->
      exists classes,
        dict_get "classes" (dataset_meta model) = Some classes /\
        Forall (fun c => In c classes) names) ->
   forall e, o <> Raised e).
Proof.
  intros Hrun Hflags Hnames. split.
  - pattern t, o.
    match goal with
    | |- ?Q t o => refine (post_run _ Q _ w past t o Hrun)
    end.
    clear Hrun. unfold main.
    destruct (to_labelme args) eqn:Hl, (show args) eqn:Hs, (deploy args);
      cbn [andb negb] in *; try discriminate Hflags.
    all: walk.
    all: try match goal with
             | H : forallb succeeded _ = true |- _ =>
                 cbn [forallb succeeded ev_resp andb] in H; discriminate H
             end.
    all: apply post_main_tail;
      [ intros c rest Hc Hd Hex _
      | intros known c rest classes Hc Hd Hk Hn; split;
        [ intros e _ Hok | intros v' Hex _ ]
      | intros Hnk; split; [|split];
        [ intros e _ Hok
        | intros bar tl o' Hsum Hne Hex Hok
        | intros bar tl Hsum; unfold report; rewrite Hl, Hs;
          cbn [andb negb]; walk ] ].
    all: try match goal with
             | H : forallb succeeded _ = true |- _ =>
                 cbn [forallb succeeded ev_resp andb] in H; discriminate H
             end.
    all: match goal with
         | Hex : forall model, In _ _ -> exists _, _,
           m : resp (init_detector _ _ _) |- _ =>
             let H := fresh "Hm" in
             pose proof (Hex m) as H;
             cbn [map returned_model] in H;
             lapply H; [clear H; intros (classes' & Hd' & Hex')
                       | cbn [In]; auto 20]
         end.
    all: try (exfalso; congruence).
    all: try (exfalso; rewrite Hnames, Hd' in Hnk;
              exact (known_not_unknown _ _ Hnk Hex')).
    all: assert (names = known ++ c :: rest) by congruence.
    all: match goal with
         | m : resp (init_detector _ _ _) |- _ => exists m, classes, known, c, rest
         end.
    all: match goal with
         | |- exists t' v, _ /\ _ /\ _ /\ _ /\ _ /\ _ /\ ?l = _ =>
             let i := all_but_last l in exists i, v'
         end.
    all: repeat split; auto.
    all: cbn [map returned_model In]; auto 20.
  - pattern t, o.
    match goal with
    | |- ?Q t o => refine (post_run _ Q _ w past t o Hrun)
    end.
    clear Hrun. unfold main.
    destruct (to_labelme args) eqn:Hl, (show args) eqn:Hs, (deploy args);
      cbn [andb negb] in *; try discriminate Hflags.
    all: walk.
    all: try discriminate.
    all: apply post_main_tail;
      [ intros c rest Hc Hd Hall
      | intros known c rest classes Hc Hd Hk Hn; split;
        [ intros e Hall | intros v' Hall ]
      | intros Hnk; split; [|split];
        [ intros e Hall
        | intros bar tl o' [_ Hend] Hne Hall
        | intros bar tl Hsum; unfold report; rewrite Hl, Hs;
          cbn [andb negb]; walk ] ].
    all: try discriminate.
    all: try (intros e' ->; contradiction).
    all: exfalso.
    all: match goal with
         | m : resp (init_detector _ _ _) |- _ =>
             specialize (Hall m); cbn [map returned_model] in Hall;
             lapply Hall; [clear Hall; intros (classes' & Hd' & Hall)
                          | cbn [In]; auto 20]
         end.
    all: assert (classes' = classes) by congruence; subst classes'.
    all: assert (names = known ++ c :: rest) by congruence; subst names.
    all: rewrite Forall_forall in Hall.
    all: apply Hn, Hall, in_elt.
Qed.

(** C3. The output file name of lines 97-100, for the files of a run.
    The output calls of a run are those of the listed files, one each
    and in order (of all of them when the run ends normally), and the
    output call of a file writes under a name that is: for a directory
    input, the answer of [os.path.relpath(file, args.img)] with every
    ['/'] turned into ['_'] and every other character kept, so that it
    has the length of the relative path and no separator; for any other
    input, [os.path.basename(file)], the part of [file] that follows its
    last separator. *)
Theorem C3_output_filename (w : env) (args : Args)
    (past t : list event) (o : outcome unit) :
  run w (main args) past = (t, o) ->
  outputs_per_file args t o (fun _ source_type file c =>
    exists name : string,
      written_as args c name /\
      if is_dir source_type then
        exists rel : string,
          In (Ev (os_path_relpath file (img args)) (inr rel)) t /\
          name = PyStr.map_char PyStr.slash PyStr.underscore rel /\
          String.length name = String.length rel /\
          PyStr.mem_char PyStr.slash name = false
      else
        name = OsPath.basename file /\
        PyStr.mem_char PyStr.slash name = false /\
        exists head : string,
          file = (head ++ name)%string /\
          (head = EmptyString \/
           PyStr.ends_with_char PyStr.slash head = true)).
Proof.
  intros Hrun. apply outputs_per_file_impl with (2 := main_outputs _ _ _ _ _ Hrun).
  intros model source_type file c (result & name & _ & Hname & Hc).
  exists name. split.
  - destruct c; try contradiction; cbn [written_as].
    + tauto.
    + tauto.
  - unfold filename_of in Hname. destruct (is_dir source_type).
    + destruct Hname as (rel & Hrel & ->). exists rel.
      rewrite PyStrFacts.replace_char. repeat split.
      * exact Hrel.
      * apply PyStrFacts.length_map_char.
      * apply PyStrFacts.map_char_removes. discriminate.
    + subst name. split; [reflexivity|].
      split; [apply OsPathFacts.basename_no_separator|].
      apply PathFacts.basename_head.
Qed.


(** C5. For one image, when the two flags are not both set: in
    [--to-labelme] mode the visualizer is never called and the export
    routine at most once; otherwise the export routine is never called
    and the visualizer at most once; when the image is processed to the
    end the routine of the mode has been called exactly once; and the
    image is processed to the end whenever no call fails.  Over a whole
    run, in [--to-labelme] mode the visualizer is never called, and
    otherwise the export routine is never called; and the output calls
    of the run are those of the listed files, one each and in order (of
    all of them when the run ends normally), the output call of a file
    being a call of the routine of the mode that carries the result of
    the inference on that file. *)
Theorem C5_one_output_path (w : env) (args : Args) (model : Model)
    (visualizer : Visualizer) (fmt : LabelmeFormatT)
    (source_type : SourceType) (bar : ProgressBarT) (file : string)
    (past t : list event) (o : outcome unit) :
  (to_labelme args && show args)%bool = false ->
  run w (process_file args model visualizer fmt source_type bar file) past
    = (t, o) ->
  (if to_labelme args
   then count is_visualize t = 0 /\ count is_export t <= 1
   else count is_export t = 0 /\ count is_visualize t <= 1) /\
  (o = Returned tt ->
   if to_labelme args then count is_export t = 1
   else count is_visualize t = 1) /\
  (never_fails w -> o = Returned tt) /\
  (forall (past' t' : list event) (o' : outcome unit),
     run w (main args) past' = (t', o') ->
     (if to_labelme args then count is_visualize t' = 0
      else count is_export t' = 0) /\
     outputs_per_file args t' o' (fun model' _ file' c =>
       (if to_labelme args then is_export c else is_visualize c) = true /\
       exists result : DataSample,
         In (Ev (inference_detector model' file') (inr result)) t' /\
         carries args c result)).
Proof.
  intros Hflags Hrun.
  assert (Himage :
    (if to_labelme args
     then count is_visualize t = 0 /\ count is_export t <= 1
     else count is_export t = 0 /\ count is_visualize t <= 1) /\
    (o = Returned tt ->
     if to_labelme args then count is_export t = 1
     else count is_visualize t = 1) /\
    ((forall e, o <> Propagated e) -> o = Returned tt)).
  { pattern t, o.
    match goal with
    | |- ?Q t o => refine (post_run _ Q _ w past t o Hrun)
    end.
    clear Hrun. unfold process_file, choose_filename, choose_out_file.
    destruct (is_dir source_type), (to_labelme args), (show args);
      try discriminate Hflags.
    all: walk.
    all: cbn [count filter is_visualize is_export ev_call List.length];
      auto.
    all: try discriminate.
    all: try match goal with
             | H : forall e, Propagated ?x <> Propagated e |- _ =>
                 now destruct (H x)
             end.
    all: match goal with
         | |- Returned ?v = Returned tt => now destruct v
         end. }
  destruct Himage as (Hpaths & Hdone & Hends).
  split; [exact Hpaths|]. split; [exact Hdone|]. split.
  - intros Hw. apply Hends. eapply run_never_fails; eauto.
  - intros past' t' o' Hmain. split.
    2:{ apply outputs_per_file_impl with (2 := main_outputs _ _ _ _ _ Hmain).
        intros model' st file' c (result & name & Hres & _ & Hc).
        destruct c; try contradiction.
        - destruct Hc as (-> & Hi & Hm & _). split; [reflexivity|].
          exists result. split; [exact Hres|]. cbn [carries]. auto.
        - destruct Hc as (-> & _ & Hd & _). split; [reflexivity|].
          exists result. split; [exact Hres|]. exact Hd. }
    assert (Hall : Forall (fun ev =>
              (if to_labelme args then is_visualize (ev_call ev)
               else is_export (ev_call ev)) = false) t').
    { apply (all_calls_run (fun c =>
               (if to_labelme args then is_visualize c else is_export c)
               = false)) with (2 := Hmain).
      unfold main, report.
      destruct (to_labelme args) eqn:Hl, (show args) eqn:Hs, (deploy args);
        try discriminate Hflags; calls_walk.
      all: unfold process_file, choose_filename, choose_out_file;
        rewrite Hl, Hs.
      all: destruct (is_dir _); calls_walk. }
    destruct (to_labelme args); now apply count_none.
Qed.

(** C6 (amended). When the two flags are not both set, every requested
    class name is a class of the loaded model, and no call fails, the
    script returns normally.  Without [--show] its last call prints the
    completion message, which names the output location: in
    [--to-labelme] mode [args.out_dir] as given, otherwise the absolute
    path that [os.path.abspath(args.out_dir)] just returned.  With
    [--show] it prints no message at all. *)
Theorem C6_completion_message (w : env) (args : Args)
    (past t : list event) (o : outcome unit) :
  run w (main args) past = (t, o) ->
  (to_labelme args && show args)%bool = false ->
  (forall model, In (Some model) (map returned_model t) ->
     names_known (class_name args)
       (dict_get "classes" (dataset_meta model))) ->
  forallb succeeded t = true ->
  o = Returned tt /\
  if show args then count is_print_log t = 0
  else
    exists t' msg v,
      t = t' ++ [Ev (print_log msg) (inr v)] /\
      if to_labelme args then
        msg = (newline ++ "Labelme format label files had all been saved in "
                 ++ out_dir args)%string
      else
        exists t'' p,
          t' = t'' ++ [Ev (os_path_abspath (out_dir args)) (inr p)] /\
          msg = (newline ++ "Results have been saved at " ++ p)%string.
Proof.
  intros Hrun Hflags Hknown Hok.
  assert (Hnolog : show args = true -> count is_print_log t = 0).
  { intros Hs. rewrite Hs, andb_true_r in Hflags.
    apply count_none.
    apply (all_calls_run (fun c => is_print_log c = false)) with (2 := Hrun).
    unfold main, report. rewrite Hs, Hflags.
    destruct (deploy args); calls_walk.
    all: unfold process_file, choose_filename, choose_out_file;
      rewrite Hs, Hflags.
    all: destruct (is_dir _); calls_walk. }
  cut (o = Returned tt /\
       (show args = false ->
        exists t' msg v,
          t = t' ++ [Ev (print_log msg) (inr v)] /\
          if to_labelme args then
            msg = (newline
                     ++ "Labelme format label files had all been saved in "
                     ++ out_dir args)%string
          else
            exists t'' p,
              t' = t'' ++ [Ev (os_path_abspath (out_dir args)) (inr p)] /\
              msg = (newline ++ "Results have been saved at " ++ p)%string)).
  { intros [Hret Hmsg]. split; [exact Hret|].
    destruct (show args); auto. }
  clear Hnolog. revert Hknown Hok. pattern t, o.
  match goal with
  | |- ?Q t o => refine (post_run _ Q _ w past t o Hrun)
  end.
  clear Hrun. unfold main.
  destruct (to_labelme args) eqn:Hl, (show args) eqn:Hs, (deploy args);
    cbn [andb negb] in *; try discriminate Hflags.
  all: walk.
  all: try match goal with
           | H : forallb succeeded _ = true |- _ =>
               cbn [forallb succeeded ev_resp andb] in H; discriminate H
           end.
  all: apply post_main_tail;
    [ intros c rest Hc Hd Hknown _
    | intros known c rest classes Hc Hd Hk Hn; split;
      [ intros e _ Hok | intros v' Hknown _ ]
    | intros _; split; [|split];
      [ intros e _ Hok
      | intros bar tl o' Hsum Hne _ Hok
      | intros bar tl Hsum; unfold report; rewrite Hl, Hs;
        cbn [andb negb]; walk ] ].
  all: try match goal with
           | H : forallb succeeded _ = true |- _ =>
               cbn [forallb succeeded ev_resp andb] in H; discriminate H
           end.
  (* the names are known *)
  all: try match goal with
       | Hknown : forall model, In _ _ -> names_known _ _,
         m : resp (init_detector _ _ _) |- _ =>
           exfalso; specialize (Hknown m);
           cbn [map returned_model] in Hknown;
           lapply Hknown; [clear Hknown; intros Hknown
                          | cbn [In]; auto 20];
           rewrite Hc, Hd in Hknown
       end.
  all: try match goal with
       | Hknown : names_known (Some (?c :: ?rest)) None |- _ =>
           destruct (Hknown c (or_introl eq_refl)) as (? & ? & _);
           discriminate
       | Hknown : names_known (Some (?known ++ ?c :: ?rest)) (Some _) |- _ =>
           destruct (Hknown c (in_elt c known rest)) as (? & Heq & ?);
           inversion Heq; subst; contradiction
       end.
  (* the loop stopped *)
  all: try match goal with
       | Hsum : loop_summary _ _ _ _ ?o' |- _ =>
           exfalso; destruct Hsum as [_ Hend];
           cbn [forallb succeeded ev_resp andb] in Hok;
           destruct o' as [[]|?|?|?];
           [ now apply (Hne tt) | exact Hend
           | rewrite Hl, Hs in Hend; discriminate Hend | congruence ]
       end.
  (* the report *)
  all: try match goal with
       | H : forallb succeeded _ = true |- _ =>
           exfalso; cbn [forallb succeeded ev_resp andb] in H;
           rewrite forallb_app in H;
           cbn [forallb succeeded ev_resp andb] in H;
           rewrite ?andb_false_r in H; discriminate H
       end.
  all: try discriminate.
  all: try match goal with
           | |- Returned ?v = Returned tt => now destruct v
           end.
  all: try match goal with
       | |- context [?tl ++ [?a; ?b]] =>
           change (tl ++ [a; b]) with (tl ++ ([a] ++ [b]));
           rewrite (app_assoc tl [a] [b])
       end.
  all: rewrite !app_comm_cons.
  all: eexists; eexists; eexists; (split; [reflexivity|]).
  all: try reflexivity.
  all: eexists; eexists; split; reflexivity.
Qed.


(** C8. The calls of any run that concern progress are an initial part
    of: the listing of the files, the creation of the bar with the number
    of listed files, and then, for each file in order, the inference on
    the file followed by one update of the bar; so when the loop has
    processed [k] files the bar has been updated [k] times.  A run that
    ends normally has all of them, and as many updates as files.  Every
    update acts on the bar that was created. *)
Theorem C8_progress (w : env) (args : Args) (past t : list event)
    (o : outcome unit) :
  run w (main args) past = (t, o) ->
  (exists (files : list string) (k : nat),
     progress_view t = firstn k (expected_progress files) /\
     (o = Returned tt ->
      progress_view t = expected_progress files /\
      count is_update t = List.length files)) /\
  (forall b, In (Some b) (map updated_bar t) ->
             In (Some b) (map created_bar t)).
Proof.
  intros Hrun. split.
  - pattern t, o.
    match goal with
    | |- ?Q t o => refine (post_run _ Q _ w past t o Hrun)
    end.
    clear. unfold main.
    destruct (to_labelme args) eqn:Hl, (show args) eqn:Hs, (deploy args);
      cbn [andb negb].
    all: walk.
    all: try (exists [], 0; split; [reflexivity | discriminate]).
    all: try (eexists; exists 1; split; [reflexivity | discriminate]).
    all: apply post_main_tail.
    all: walk.
    all: try (eexists; exists 1; split; [reflexivity | discriminate]).
    all: try (eexists; exists 2; split; [reflexivity | discriminate]).
    all: match goal with
         | H : loop_summary _ _ _ _ _ |- _ =>
             unfold loop_summary in H; destruct H as [[[j Hj] _] Hend]
         end.
    all: try match goal with
         | Hne : forall a, ?o <> Returned a,
           listing : resp (get_file_list _) |- _ =>
             exists (fst listing), (S (S j));
             split; [cbn [progress_view progress_of]; rewrite Hj; reflexivity|];
             intros ->; now destruct (Hne tt)
         end.
    all: destruct Hend as (Hview & _ & Hupd).
    all: unfold report; rewrite Hl, Hs; cbn [andb negb]; walk.
    all: match goal with
         | listing : resp (get_file_list _) |- _ =>
             exists (fst listing),
               (S (S (List.length (flat_map file_progress (fst listing)))))
         end.
    all: cbn [progress_view progress_of];
      rewrite progress_view_app, Hview; cbn [progress_view progress_of].
    all: rewrite app_nil_r.
    all: split; [cbn [firstn expected_progress]; now rewrite firstn_all|].
    all: try discriminate.
    all: intros _; split; [reflexivity|].
    all: rewrite !count_cons, count_app, ?count_cons, Hupd.
    all: cbn [is_update ev_call count filter List.length]; lia.
  - pattern t, o.
    match goal with
    | |- ?Q t o => refine (post_run _ Q _ w past t o Hrun)
    end.
    clear. unfold main.
    destruct (to_labelme args) eqn:Hl, (show args) eqn:Hs, (deploy args);
      cbn [andb negb].
    all: walk.
    all: try match goal with
             | H : In (Some _) (map updated_bar _) |- _ =>
                 cbn [map updated_bar In] in H; pick_event H; discriminate
             end.
    all: apply post_main_tail;
      [ intros c rest Hc Hd b Hb
      | intros known c rest classes Hc Hd Hk Hn; split;
        [ intros e b Hb | intros v' b Hb ]
      | intros _; split; [|split];
        [ intros e b Hb
        | intros bar tl o' [[_ Hbar] _] _ b Hb
        | intros bar tl [[_ Hbar] _]; unfold report; rewrite Hl, Hs;
          cbn [andb negb]; walk ] ].
    all: match goal with
         | H : In (Some _) (map updated_bar _) |- _ =>
             cbn [map updated_bar In] in H;
             repeat (destruct H as [H|H]; [discriminate H|]);
             try contradiction
         end.
    all: try (rewrite map_app in *;
              match goal with
              | H : In _ (_ ++ _) |- _ =>
                  apply in_app_or in H as [H|H];
                  [|cbn [map updated_bar In] in H; pick_event H; discriminate]
              end).
    all: match goal with
         | H : In (Some ?b) (map updated_bar _) |- _ =>
             apply Hbar in H; subst b
         end.
    all: cbn [map created_bar In]; auto 20.
Qed.

(** C9. In [--show] mode the [out_file] of line 101 is [None] for every
    file name, and no run of the script ever creates the output
    directory or calls the export routine, and every call of the
    visualizer gets [out_file=None]: the script's own output path
    writes nothing to disk. *)
Theorem C9_show_writes_nothing (w : env) (args : Args)
    (past t : list event) (o : outcome unit) :
  show args = true ->
  run w (main args) past = (t, o) ->
  (forall filename : string, choose_out_file args filename = None) /\
  Forall (fun ev => writes_nothing (ev_call ev)) t /\
  count is_mkdir t = 0 /\ count is_export t = 0.
Proof.
  intros Hshow Hrun.
  split; [intros filename; unfold choose_out_file; now rewrite Hshow|].
  assert (Hall : Forall (fun ev => writes_nothing (ev_call ev)) t).
  { apply all_calls_run with (2 := Hrun).
    unfold main, report. rewrite Hshow.
    destruct (to_labelme args), (deploy args); calls_walk.
    all: unfold process_file, choose_filename, choose_out_file;
      rewrite Hshow.
    all: destruct (is_dir _), (to_labelme args); calls_walk. }
  split; [exact Hall|]. unfold count.
  clear Hrun. induction Hall as [|ev t Hev _ [IH1 IH2]]; [split; reflexivity|].
  cbn [filter]. destruct (ev_call ev); cbn [is_mkdir is_export writes_nothing] in *;
    try contradiction; auto.
Qed.

End Claims.


(** Walks through a script for a property of every call, [open_property]
    unfolding the property. *)
Ltac calls_walk_with open_property :=
  repeat (cbn [all_calls bind invoke andb negb]; open_property;
          match goal with
          | |- True => exact I
          | |- _ = _ => reflexivity
          | |- _ /\ _ => split
          | |- forall _, _ => intro
          | |- all_calls _ (bind (check_class_name _ _) _) =>
              apply all_calls_bind
          | |- all_calls _ (bind (for_each _ _) _) => apply all_calls_bind
          | |- all_calls _ (check_class_name _ _) =>
              apply all_calls_check_class_name
          | |- all_calls _ (for_each _ _) => apply all_calls_for_each
          end).

(* ===================================================================== *)
(** ** Further properties of the script *)
(* ===================================================================== *)

Section MoreRunFacts.
Context {F : Framework}.

Lemma guarded_ready (opens : event -> bool) (needs : call -> bool)
    (t : list event) :
  guarded opens needs true t = true.
Proof.
  induction t as [|ev t IH]; cbn [guarded orb]; [reflexivity|].
  now rewrite orb_true_r, IH.
Qed.

(** What [guarded] says. *)
Lemma guarded_precedes (opens : event -> bool) (needs : call -> bool)
    (ready : bool) (t : list event) :
  guarded opens needs ready t = true ->
  forall t1 ev t2,
    t = t1 ++ ev :: t2 -> needs (ev_call ev) = true ->
    ready = true \/ existsb opens t1 = true.
Proof.
  revert ready; induction t as [|x t IH]; intros ready H t1 ev t2 Ht Hn.
  - destruct t1; discriminate.
  - cbn [guarded] in H. apply andb_true_iff in H as [Hx Ht'].
    destruct t1 as [|y t1]; cbn [app] in Ht; inversion Ht; subst.
    + rewrite Hn in Hx. cbn in Hx. now left.
    + destruct (IH _ Ht' t1 ev t2 eq_refl Hn) as [Hr|He].
      * apply orb_true_iff in Hr as [Hr|Hr]; [now left|].
        right. cbn [existsb]. now rewrite Hr.
      * right. cbn [existsb]. rewrite He. apply orb_true_r.
Qed.

Lemma all_calls_post {A : Type} (P : call -> Prop) (p : prog A) :
  all_calls P p -> post p (fun t _ => Forall (fun ev => P (ev_call ev)) t).
Proof.
  induction p as [a|e|e|c k IH]; intros H; cbn [post all_calls] in *;
    try constructor.
  - intros e. destruct H as [Hc _]. repeat constructor. exact Hc.
  - intros v. destruct H as [Hc Hk].
    apply post_mono with (2 := IH v (Hk v)).
    intros t _ Ht. constructor; assumption.
Qed.

Lemma all_calls_for_each_in {X : Type} (P : call -> Prop) (l : list X)
    (body : X -> prog unit) :
  (forall x, In x l -> all_calls P (body x)) -> all_calls P (for_each l body).
Proof.
  induction l as [|x l IH]; intros Hbody; cbn [for_each all_calls]; auto.
  apply all_calls_bind; [apply Hbody; now left|].
  intros _. apply IH. intros y Hy. apply Hbody. now right.
Qed.

Lemma post_process_file_work (args : Args) (model : Model)
    (visualizer : Visualizer) (fmt : LabelmeFormatT)
    (source_type : SourceType) (bar : ProgressBarT) (file : string) :
  post (process_file args model visualizer fmt source_type bar file)
    (fun t o => o = Returned tt ->
                count is_inference t = 1 /\ count (mode_routine args) t = 1).
Proof.
  unfold process_file, choose_filename, choose_out_file, mode_routine.
  destruct (is_dir source_type), (to_labelme args), (show args).
  all: walk.
  all: try discriminate.
  all: reflexivity.
Qed.

Lemma post_loop_work (args : Args) (model : Model)
    (visualizer : Visualizer) (fmt : LabelmeFormatT)
    (source_type : SourceType) (bar : ProgressBarT) (files : list string) :
  post (for_each files
          (process_file args model visualizer fmt source_type bar))
    (loop_work args model visualizer fmt files).
Proof.
  apply post_conj; [|apply post_conj].
  - apply all_calls_post. apply all_calls_for_each_in. intros file Hfile.
    unfold process_file, choose_filename, choose_out_file.
    destruct (is_dir source_type), (to_labelme args), (show args).
    all: cbn [all_calls bind invoke works_on]; auto 20.
  - apply all_calls_post. apply all_calls_for_each_in. intros file Hfile.
    unfold process_file, choose_filename, choose_out_file.
    destruct (is_dir source_type), (to_labelme args), (show args) eqn:Hs.
    all: cbn [all_calls bind invoke renders_with]; rewrite ?Hs; auto 20.
  - apply post_for_each with
      (I := fun rest t =>
              exists done, files = done ++ rest /\
                count is_inference t = List.length done /\
                count (mode_routine args) t = List.length done).
    + exists []. repeat split; reflexivity.
    + intros file rest t (done & -> & Hinf & Hout).
      apply post_mono with (2 := post_process_file_work args model visualizer
                                   fmt source_type bar file).
      intros t' [[]|e|e|e] H; try discriminate.
      destruct (H eq_refl) as [Hinf' Hout'].
      exists (done ++ [file]). rewrite <- app_assoc. split; [reflexivity|].
      rewrite !count_app, length_app, Hinf, Hinf', Hout, Hout'.
      cbn [List.length]. auto.
    + intros t (done & Hfiles & Hinf & Hout) _.
      rewrite app_nil_r in Hfiles. subst done. auto.
Qed.

(** Lines 80-133 again, with both summaries of the loop. *)
Lemma post_main_tail_work (args : Args) (model : Model)
    (visualizer : Visualizer) (fmt : LabelmeFormatT)
    (files : list string) (source_type : SourceType)
    (Q : list event -> outcome unit -> Prop) :
  let dataset_classes := dict_get "classes" (dataset_meta model) in
  let create := ProgressBar (List.length files) in
  (forall c rest, class_name args = Some (c :: rest) ->
     dataset_classes = None ->
     Q [] (Faulted (TypeError "argument of type 'NoneType' is not iterable"))) ->
  (forall known c rest classes,
     class_name args = Some (known ++ c :: rest) ->
     dataset_classes = Some classes ->
     Forall (fun k => In k classes) known -> ~ In c classes ->
     (forall e, Q [Ev (show_data_classes dataset_classes) (inl e)]
                  (Propagated e)) /\
     (forall v, Q [Ev (show_data_classes dataset_classes) (inr v)]
                  (Raised (unknown_class_error c)))) ->
  (names_known (class_name args) dataset_classes ->
   (forall e, Q [Ev create (inl e)] (Propagated e)) /\
   (forall bar tl o,
      loop_summary args bar files tl o ->
      loop_work args model visualizer fmt files tl o ->
      (forall a, o <> Returned a) ->
      Q (Ev create (inr bar) :: tl) o) /\
   (forall bar tl,
      loop_summary args bar files tl (Returned tt) ->
      loop_work args model visualizer fmt files tl (Returned tt) ->
      post (report args)
        (fun tr o => Q (Ev create (inr bar) :: tl ++ tr) o))) ->
  post
    (bind (check_class_name (class_name args) dataset_classes) (fun _ =>
     bind (invoke create) (fun progress_bar =>
     bind (for_each files
             (process_file args model visualizer fmt source_type
                progress_bar)) (fun _ =>
     report args)))) Q.
Proof.
  intros dataset_classes create Hfault Hunknown Hknown.
  apply post_bind. apply post_check_class_name.
  - intros Hk. destruct (Hknown Hk) as (Hcreate & Hstop & Hreport).
    cbn [after app]. walk; [apply Hcreate|].
    apply post_bind.
    apply post_mono with
      (2 := post_conj _ _ _
              (post_loop args model visualizer fmt source_type v files)
              (post_loop_work args model visualizer fmt source_type v files)).
    intros tl [[]|e|e|e] [Hsum Hwork]; cbn [after].
    + apply Hreport; assumption.
    + apply Hstop; [assumption | assumption | discriminate].
    + apply Hstop; [assumption | assumption | discriminate].
    + apply Hstop; [assumption | assumption | discriminate].
  - intros c rest Hc Hd. cbn [after]. eapply Hfault; eauto.
  - intros known c rest classes Hc Hd Hk Hn. cbn [after].
    apply (Hunknown known c rest classes); auto.
Qed.

Lemma works_on_no_deploy (model : Model) (files : list string)
    (t : list event) :
  Forall (fun ev => works_on model files (ev_call ev)) t ->
  count is_deploy t = 0 /\
  (forall m, ~ In (Some m) (map (fun ev => deployed_model (ev_call ev)) t)).
Proof.
  induction 1 as [|ev t Hev _ [IH1 IH2]]; [split; [reflexivity | intros m []]|].
  rewrite count_cons. cbn [map In].
  destruct (ev_call ev); cbn [works_on is_deploy deployed_model] in *;
    try contradiction; (split; [exact IH1|]);
    intros m [Hm|Hm]; try discriminate; eapply IH2; eauto.
Qed.

End MoreRunFacts.

Section Extras.
Context {F : Framework}.

(** X1. Whatever the output path, the annotation path of lines 111-112
    ends in [.json]. *)
Theorem X1_annotation_path_ends_in_json (out_file : string) :
  exists head : string, labelme_out_file out_file = (head ++ ".json")%string.
Proof.
  unfold labelme_out_file.
  pose proof (OsPathFacts.splitext_concat out_file) as Hcat.
  destruct (PathFacts.splitext_ext_shape out_file) as [He|(rest & He & Hrest)];
    rewrite He in *.
  - apply PathFacts.interleave_ends.
  - rewrite <- Hcat. unfold PyStr.replace.
    apply (PathFacts.replace_scan_ends PyStr.dot rest ".json"
             (String.length (fst (OsPath.splitext out_file))) Hrest).
    apply Nat.le_refl.
Qed.

(** X2. When the last component of the output path holds no dot, the
    path has no extension and lines 111-112 do not append [.json] to it:
    they insert [.json] before each of its characters and after the last
    one. *)
Theorem X2_annotation_path_without_extension (out_file : string) :
  PyStr.mem_char PyStr.dot (OsPath.basename out_file) = false ->
  labelme_out_file out_file = PyStr.interleave ".json" out_file /\
  String.length (labelme_out_file out_file) = 6 * String.length out_file + 5 /\
  (out_file <> EmptyString ->
   labelme_out_file out_file <> (out_file ++ ".json")%string).
Proof.
  intros Hdot.
  assert (Heq : labelme_out_file out_file = PyStr.interleave ".json" out_file).
  { unfold labelme_out_file.
    now rewrite (PathFacts.splitext_no_dot out_file Hdot). }
  assert (Hlen : String.length (labelme_out_file out_file)
                 = 6 * String.length out_file + 5).
  { rewrite Heq, PathFacts.length_interleave. cbn [String.length]. lia. }
  repeat split; auto.
  intros Hne Habs. rewrite Habs, PathFacts.length_append in Hlen.
  cbn [String.length] in Hlen. destruct out_file; [congruence|].
  cbn [String.length] in Hlen. lia.
Qed.

(** X3. In every run, the name handed to the visualizer holds no
    separator; with [--show] its [out_file] is [None], and without
    [--show] its [out_file] is [args.out_dir] joined with that name, a
    path whose last component is the name. *)
Theorem X3_rendered_output_path (w : env) (args : Args)
    (past t : list event) (o : outcome unit) (ev : event)
    (v : Visualizer) (name : string) (image : Image)
    (data_sample : DataSample) (draw_gt sh : bool) (wait_time : Z)
    (out_file : option string) (thr : Score) :
  run w (main args) past = (t, o) ->
  In ev t ->
  ev_call ev = add_datasample v name image data_sample draw_gt sh
                 wait_time out_file thr ->
  PyStr.mem_char PyStr.slash name = false /\
  (show args = true -> out_file = None) /\
  (show args = false ->
   out_file = Some (OsPath.join (out_dir args) name) /\
   OsPath.basename (OsPath.join (out_dir args) name) = name).
Proof.
  intros Hrun Hin Hcall.
  assert (Hall : Forall (fun ev => output_under args (ev_call ev)) t).
  { apply (all_calls_run (output_under args)) with (2 := Hrun).
    unfold main, report.
    destruct (to_labelme args) eqn:Hl, (show args) eqn:Hs, (deploy args);
      calls_walk_with ltac:(cbn [output_under]).
    all: unfold process_file, choose_filename.
    all: match goal with
         | |- context [is_dir ?s] => destruct (is_dir s)
         end; rewrite ?Hl; calls_walk_with ltac:(cbn [output_under]).
    all: try (rewrite PyStrFacts.replace_char;
              apply PyStrFacts.map_char_removes; discriminate).
    all: try apply OsPathFacts.basename_no_separator.
    all: unfold choose_out_file; rewrite Hs;
      calls_walk_with ltac:(cbn [output_under]).
    all: eexists; split; [|reflexivity].
    all: try (rewrite PyStrFacts.replace_char;
              apply PyStrFacts.map_char_removes; discriminate).
    all: apply OsPathFacts.basename_no_separator. }
  rewrite Forall_forall in Hall. specialize (Hall ev Hin).
  rewrite Hcall in Hall. cbn [output_under] in Hall.
  destruct Hall as [Hname ->]. split; [exact Hname|].
  unfold choose_out_file. split; intros Hs; rewrite Hs; [reflexivity|].
  split; [reflexivity|]. now apply PathFacts.basename_join.
Qed.

(** X4. The flattening of line 98 is not one-to-one.  For a directory
    input, a file whose relative path [rel] holds a separator and a file
    whose relative path is [rel] with its separators already turned into
    underscores are two different files that get the same output name, so
    that the output of one replaces the output of the other. *)
Theorem X4_flattened_names_collide (w : env) (past : list event)
    (source_type : SourceType) (file1 file2 image rel : string) :
  is_dir source_type = true ->
  PyStr.mem_char PyStr.slash rel = true ->
  w past (os_path_relpath file1 image) = inr rel ->
  w past (os_path_relpath file2 image)
  = inr (PyStr.map_char PyStr.slash PyStr.underscore rel) ->
  file1 <> file2 /\
  snd (run w (choose_filename source_type file1 image) past)
  = snd (run w (choose_filename source_type file2 image) past) /\
  snd (run w (choose_filename source_type file1 image) past)
  = Returned (PyStr.map_char PyStr.slash PyStr.underscore rel).
Proof.
  intros Hdir Hrel H1 H2.
  assert (Hne : PyStr.map_char PyStr.slash PyStr.underscore rel <> rel).
  { apply PathFacts.map_char_changes; [discriminate | exact Hrel]. }
  split; [|split].
  - intros ->. rewrite H1 in H2. inversion H2. congruence.
  - unfold choose_filename. rewrite Hdir. cbn [run bind invoke].
    rewrite H1, H2. cbn [run snd]. rewrite !PyStrFacts.replace_char.
    now rewrite PathFacts.map_char_idempotent by discriminate.
  - unfold choose_filename. rewrite Hdir. cbn [run bind invoke].
    rewrite H1. cbn [run snd]. now rewrite PyStrFacts.replace_char.
Qed.

(** X5. Without [--show], every call of an output routine comes, in any
    run, after a successful [mkdir_or_exist(args.out_dir)]: nothing is
    written before the output directory exists. *)
Theorem X5_directory_before_output (w : env) (args : Args)
    (past t : list event) (o : outcome unit) :
  show args = false ->
  run w (main args) past = (t, o) ->
  forall t1 ev t2,
    t = t1 ++ ev :: t2 -> is_output (ev_call ev) = true ->
    existsb (made_dir (out_dir args)) t1 = true.
Proof.
  intros Hs Hrun.
  assert (Hg : guarded (made_dir (out_dir args)) is_output false t = true).
  { pattern t, o.
    match goal with
    | |- ?Q t o => refine (post_run _ Q _ w past t o Hrun)
    end.
    clear Hrun. unfold main. rewrite Hs.
    destruct (to_labelme args) eqn:Hl, (deploy args); cbn [andb negb].
    all: walk.
    all: try reflexivity.
    all: apply post_main_tail;
      [ intros c rest Hc Hd
      | intros known c rest classes Hc Hd Hk Hn; split; [intros e|intros v']
      | intros _; split; [|split];
        [ intros e
        | intros bar tl o' _ _
        | intros bar tl _; unfold report; rewrite Hl, Hs;
          cbn [andb negb]; walk ] ].
    all: cbn [guarded made_dir is_output is_visualize is_export ev_call
              negb orb andb].
    all: rewrite ?String.eqb_refl; cbn [orb andb].
    all: try reflexivity.
    all: apply guarded_ready. }
  intros t1 ev t2 Ht Hout.
  destruct (guarded_precedes _ _ _ _ Hg t1 ev t2 Ht Hout) as [H|H];
    [discriminate | exact H].
Qed.

(** X6. A run that ends in one of the two [raise] statements of the
    script has run no inference, called no output routine and printed no
    completion message.  When the flags are not both set (the class-name
    error), it has nevertheless loaded the model and listed the files,
    and without [--show] it has created the output directory: the class
    names are checked after these side effects. *)
Theorem X6_raise_before_any_work (w : env) (args : Args)
    (past t : list event) (o : outcome unit) (e : exn) :
  run w (main args) past = (t, o) ->
  o = Raised e ->
  count is_inference t = 0 /\ count is_output t = 0 /\
  count is_print_log t = 0 /\
  ((to_labelme args && show args)%bool = false ->
   count is_init t = 1 /\ count is_listing t = 1 /\
   count is_mkdir t = if show args then 0 else 1).
Proof.
  intros Hrun. revert e. pattern t, o.
  match goal with
  | |- ?Q t o => refine (post_run _ Q _ w past t o Hrun)
  end.
  clear Hrun. unfold main.
  destruct (to_labelme args) eqn:Hl, (show args) eqn:Hs, (deploy args);
    cbn [andb negb].
  all: walk.
  all: try discriminate.
  all: try reflexivity.
  all: apply post_main_tail;
    [ intros c rest Hc Hd e He
    | intros known c rest classes Hc Hd Hk Hn; split;
      [ intros e e' He | intros v' e' He ]
    | intros _; split; [|split];
      [ intros e e' He
      | intros bar tl o' [_ Hend] Hne e' He
      | intros bar tl _; unfold report; rewrite Hl, Hs;
        cbn [andb negb]; walk ] ].
  all: try discriminate.
  all: try (subst o'; contradiction).
  all: repeat split; reflexivity.
Qed.

(** X7. A run of [main] ends in an error of a built-in operation in one
    case only: [--class-name] names at least one class and the metadata
    of the loaded model has no ['classes'] entry, so that [in] is applied
    to [None] (line 82); no inference has been run then.  In particular
    [out_file.replace] of line 111 is never applied to [None], and
    without [--class-name] a model without ['classes'] is accepted.
    Conversely, with the flags not both set, such a model and such a
    request end every run in which no call fails in that error. *)
Theorem X7_missing_classes (w : env) (args : Args)
    (past t : list event) (o : outcome unit) :
  run w (main args) past = (t, o) ->
  (forall e, o = Faulted e ->
     e = TypeError "argument of type 'NoneType' is not iterable" /\
     count is_inference t = 0 /\
     exists c rest model,
       class_name args = Some (c :: rest) /\
       In (Some model) (map returned_model t) /\
       dict_get "classes" (dataset_meta model) = None) /\
  ((to_labelme args && show args)%bool = false ->
   (exists c rest, class_name args = Some (c :: rest)) ->
   (forall model, In (Some model) (map returned_model t) ->
      dict_get "classes" (dataset_meta model) = None) ->
   forallb succeeded t = true ->
   o = Faulted (TypeError "argument of type 'NoneType' is not iterable")).
Proof.
  intros Hrun. split.
  - pattern t, o.
    match goal with
    | |- ?Q t o => refine (post_run _ Q _ w past t o Hrun)
    end.
    clear Hrun. unfold main.
    destruct (to_labelme args) eqn:Hl, (show args) eqn:Hs, (deploy args);
      cbn [andb negb].
    all: walk.
    all: try discriminate.
    all: apply post_main_tail;
      [ intros c rest Hc Hd e He
      | intros known c rest classes Hc Hd Hk Hn; split;
        [ intros e e' He | intros v' e' He ]
      | intros _; split; [|split];
        [ intros e e' He
        | intros bar tl o' [_ Hend] Hne e' He
        | intros bar tl _; unfold report; rewrite Hl, Hs;
          cbn [andb negb]; walk ] ].
    all: try discriminate.
    all: try (subst o'; rewrite Hl, Hs in Hend; discriminate Hend).
    all: inversion He; subst e; clear He.
    all: split; [reflexivity|]; split; [reflexivity|].
    all: match goal with
         | m : resp (init_detector _ _ _) |- _ => exists c, rest, m
         end.
    all: repeat split; auto.
    all: cbn [map returned_model In]; auto 20.
  - intros Hflags (c0 & rest0 & Hnames). pattern t, o.
    match goal with
    | |- ?Q t o => refine (post_run _ Q _ w past t o Hrun)
    end.
    clear Hrun. unfold main.
    destruct (to_labelme args) eqn:Hl, (show args) eqn:Hs, (deploy args);
      cbn [andb negb] in *; try discriminate Hflags.
    all: walk.
    all: try match goal with
             | H : forallb succeeded _ = true |- _ =>
                 cbn [forallb succeeded ev_resp andb] in H; discriminate H
             end.
    all: apply post_main_tail;
      [ intros c rest Hc Hd Hmissing _
      | intros known c rest classes Hc Hd Hk Hn; split;
        [ intros e Hmissing Hok | intros v' Hmissing Hok ]
      | intros Hnk; split; [|split];
        [ intros e Hmissing Hok
        | intros bar tl o' Hsum Hne Hmissing Hok
        | intros bar tl Hsum; unfold report; rewrite Hl, Hs;
          cbn [andb negb]; walk ] ].
    all: try reflexivity.
    all: exfalso.
    all: match goal with
         | Hmissing : forall model, In _ _ -> dict_get _ _ = None,
           m : resp (init_detector _ _ _) |- _ =>
             specialize (Hmissing m); cbn [map returned_model] in Hmissing;
             lapply Hmissing; [clear Hmissing; intros Hmissing
                              | cbn [In]; auto 20];
             first [ congruence
                   | rewrite Hnames, Hmissing in Hnk;
                     destruct (Hnk c0 (or_introl eq_refl)) as (? & ? & _);
                     discriminate ]
         end.
Qed.


(** X9. [switch_to_deploy] is called at most once in a run, never
    without [--deploy], and only on the model that [init_detector]
    returned; with [--deploy], every inference comes after a successful
    [switch_to_deploy]. *)
Theorem X9_deploy_before_inference (w : env) (args : Args)
    (past t : list event) (o : outcome unit) :
  run w (main args) past = (t, o) ->
  count is_deploy t <= (if deploy args then 1 else 0) /\
  (forall m, In (Some m) (map (fun ev => deployed_model (ev_call ev)) t) ->
             In (Some m) (map returned_model t)) /\
  (deploy args = true ->
   forall t1 ev t2,
     t = t1 ++ ev :: t2 -> is_inference (ev_call ev) = true ->
     existsb deployed t1 = true).
Proof.
  intros Hrun.
  cut (count is_deploy t <= (if deploy args then 1 else 0) /\
       (forall m,
          In (Some m) (map (fun ev => deployed_model (ev_call ev)) t) ->
          In (Some m) (map returned_model t)) /\
       (deploy args = true ->
        guarded deployed is_inference false t = true)).
  { intros (Hcount & Hmodel & Hguard). repeat split; auto.
    intros Hd t1 ev t2 Ht Hinf.
    destruct (guarded_precedes _ _ _ _ (Hguard Hd) t1 ev t2 Ht Hinf)
      as [H|H]; [discriminate | exact H]. }
  pattern t, o.
  match goal with
  | |- ?Q t o => refine (post_run _ Q _ w past t o Hrun)
  end.
  clear Hrun. unfold main.
  destruct (to_labelme args) eqn:Hl, (show args) eqn:Hs, (deploy args);
    cbn [andb negb].
  all: walk.
  all: try (cbn [count filter is_deploy ev_call List.length]; lia).
  all: try reflexivity.
  all: try discriminate.
  all: try match goal with
           | H : In (Some _) (map _ _) |- _ =>
               cbn [map deployed_model ev_call In] in H; pick_event H;
               try discriminate;
               match goal with
               | E : Some _ = Some _ |- _ => inversion E; subst
               end;
               cbn [map returned_model In]; auto 20
           end.
  all: apply post_main_tail_work;
    [ intros c rest Hc Hd
    | intros known c rest classes Hc Hd Hk Hn; split; [intros e|intros v']
    | intros _; split; [|split];
      [ intros e
      | intros bar tl o' _ [Hwork _] _
      | intros bar tl _ [Hwork _]; unfold report; rewrite Hl, Hs;
        cbn [andb negb]; walk ] ].
  all: try match goal with
           | Hw : Forall _ _ |- _ =>
               apply works_on_no_deploy in Hw as [Hnone Hnomodel]
           end.
  all: repeat match goal with |- _ /\ _ => split | |- forall _, _ => intro end.
  all: try discriminate.
  all: try (rewrite !count_cons, ?count_app, ?count_cons, ?Hnone;
            cbn [count filter is_deploy ev_call List.length]; lia).
  all: try (cbn [guarded deployed is_deploy succeeded ev_call ev_resp
                 is_inference negb orb andb];
            first [reflexivity | apply guarded_ready]).
  all: match goal with
       | H : In (Some _) (map _ _) |- _ =>
           cbn [map deployed_model ev_call In] in H;
           repeat (destruct H as [H|H];
                   [try discriminate H; inversion H; subst;
                    cbn [map returned_model In]; auto 20|]);
           try contradiction
       end.
  all: try (rewrite map_app in *;
            match goal with
            | H : In _ (_ ++ _) |- _ =>
                apply in_app_or in H as [H|H];
                [|cbn [map deployed_model ev_call In] in H; pick_event H;
                  discriminate]
            end).
  all: exfalso; eapply Hnomodel; eauto.
Qed.

(** X10. Every inference of a run is run with the model that
    [init_detector] returned, on a file that [get_file_list] returned;
    every image read is one of these files too. *)
Theorem X10_work_on_listed_files (w : env) (args : Args)
    (past t : list event) (o : outcome unit) (ev : event) :
  run w (main args) past = (t, o) ->
  In ev t ->
  (forall m file, inferred (ev_call ev) = Some (m, file) ->
     In (Some m) (map returned_model t) /\
     exists files, In (Listed files) (progress_view t) /\ In file files) /\
  (forall file, read_image (ev_call ev) = Some file ->
     exists files, In (Listed files) (progress_view t) /\ In file files).
Proof.
  intros Hrun. revert ev. pattern t, o.
  match goal with
  | |- ?Q t o => refine (post_run _ Q _ w past t o Hrun)
  end.
  clear Hrun. unfold main.
  destruct (to_labelme args) eqn:Hl, (show args) eqn:Hs, (deploy args);
    cbn [andb negb].
  all: walk.
  all: try match goal with
           | H : In _ _ |- _ =>
               cbn [In] in H; pick_event H;
               cbn [inferred read_image ev_call] in *; discriminate
           end.
  all: apply post_main_tail_work;
    [ intros c rest Hc Hd ev Hev
    | intros known c rest classes Hc Hd Hk Hn; split;
      [ intros e ev Hev | intros v' ev Hev ]
    | intros _; split; [|split];
      [ intros e ev Hev
      | intros bar tl o' _ [Hwork _] _ ev Hev
      | intros bar tl _ [Hwork _]; unfold report; rewrite Hl, Hs;
        cbn [andb negb]; walk ] ].
  all: walk.
  all: match goal with
       | H : In ?e _, E : _ (ev_call ?e) = Some _ |- _ =>
           cbn [In] in H;
           repeat (destruct H as [H|H];
                   [subst; cbn [inferred read_image ev_call] in E;
                    discriminate E|]);
           try contradiction;
           try (apply in_app_or in H as [H|H];
                [|cbn [In] in H; pick_event H;
                  cbn [inferred read_image ev_call] in E; discriminate E]);
           rewrite Forall_forall in Hwork;
           specialize (Hwork e H); destruct e as [c' r'];
           cbn [ev_call] in *;
           destruct c'; cbn [works_on inferred read_image] in *;
           try contradiction; try discriminate E;
           inversion E; subst; clear E
       end.
  all: try destruct Hwork as [-> Hfile].
  all: try (cbn [map returned_model In]; now auto 20).
  all: match goal with
       | listing : resp (get_file_list _) |- _ => exists (fst listing)
       end.
  all: split; [cbn [progress_view progress_of In]; auto | assumption].
Qed.

(** X11. Every call of the visualizer in a run is made on the one
    visualizer that the script built from the configuration of the loaded
    model and whose [dataset_meta] it set to the model's, with
    [draw_gt=False], [wait_time=0] and [show] as given on the command
    line; every call of the export routine is made on the
    [LabelmeFormat] built from the classes of the loaded model, with
    [--class-name] as the selected class names. *)
Theorem X11_output_objects (w : env) (args : Args)
    (past t : list event) (o : outcome unit) (ev : event) :
  run w (main args) past = (t, o) ->
  In ev t ->
  (forall v name image data_sample draw_gt sh wait_time out_file thr,
     ev_call ev = add_datasample v name image data_sample draw_gt sh
                    wait_time out_file thr ->
     draw_gt = false /\ sh = show args /\ wait_time = 0%Z /\
     exists model r,
       In (Some model) (map returned_model t) /\
       In (Ev (VISUALIZERS_build (cfg_visualizer model)) (inr v)) t /\
       In (Ev (set_dataset_meta v (dataset_meta model)) (inr r)) t) /\
  (forall f instances meta output_path selected,
     ev_call ev = to_label_format f instances meta output_path selected ->
     selected = class_name args /\
     exists model,
       In (Some model) (map returned_model t) /\
       In (Ev (LabelmeFormat (dict_get "classes" (dataset_meta model)))
             (inr f)) t).
Proof.
  intros Hrun. revert ev. pattern t, o.
  match goal with
  | |- ?Q t o => refine (post_run _ Q _ w past t o Hrun)
  end.
  clear Hrun. unfold main.
  destruct (to_labelme args) eqn:Hl, (show args) eqn:Hs, (deploy args);
    cbn [andb negb].
  all: walk.
  all: try match goal with
           | H : In ?e _, E : ev_call ?e = _ |- _ =>
               cbn [In] in H; pick_event H; discriminate E
           end.
  all: apply post_main_tail_work;
    [ intros c rest Hc Hd ev Hev
    | intros known c rest classes Hc Hd Hk Hn; split;
      [ intros e ev Hev | intros v' ev Hev ]
    | intros _; split; [|split];
      [ intros e ev Hev
      | intros bar tl o' _ (_ & Hrend & _) _ ev Hev
      | intros bar tl _ (_ & Hrend & _); unfold report; rewrite Hl, Hs;
        cbn [andb negb]; walk ] ].
  all: walk.
  all: match goal with
       | H : In ?e _, E : ev_call ?e = _ |- _ =>
           cbn [In] in H;
           repeat (destruct H as [H|H];
                   [subst; cbn [ev_call] in E; discriminate E|]);
           try contradiction;
           try (apply in_app_or in H as [H|H];
                [|cbn [In] in H; pick_event H; discriminate E]);
           rewrite Forall_forall in Hrend;
           specialize (Hrend e H); destruct e as [c' r'];
           cbn [ev_call] in *; subst c'; cbn [renders_with] in Hrend
       end.
  all: repeat match goal with
              | H : _ /\ _ |- _ => destruct H
              end; subst.
  all: try rewrite Hs.
  all: try reflexivity.
  all: match goal with
       | m : resp (init_detector _ _ _) |- _ => exists m
       end.
  all: try (eexists; split; [|split]).
  all: try split.
  all: cbn [map returned_model In]; auto 20.
  all: try (right; right; right; right; right; right; right; right;
            apply in_or_app; now left).
Qed.

End Extras.


(* ===================================================================== *)
(** ** The claims on concrete runs *)
(* ===================================================================== *)

#[local] Existing Instance Demo.framework.

(** C1 on [image_demo.py a.jpg cfg.py ckpt.pth --show --to-labelme]. *)
Lemma C1_witness :
  main Demo.conflicting = Raise conflict_error /\
  forall (w : env) (past : list event),
    run w (main Demo.conflicting) past = ([], Raised conflict_error).
Proof.
  apply C1_conflicting_flags_fail_first; reflexivity.
Defined.

(** C2 on [--class-name dog cat] with a model of classes [person], [dog]. *)
Lemma C2_witness :
  let r := run Demo.single (main Demo.picky_args) [] in
  exists model classes known c rest t' v,
    In (Some model) (map returned_model (fst r)) /\
    dict_get "classes" (dataset_meta model) = Some classes /\
    ["dog"; "cat"] = known ++ c :: rest /\
    Forall (fun k => In k classes) known /\ ~ In c classes /\
    snd r = Raised (RuntimeError
                    ("Expected args.class_name to be one of the list, but got "
                       ++ PyStr.str1 PyStr.dquote ++ c
                       ++ PyStr.str1 PyStr.dquote)%string) /\
    fst r = t' ++ [Ev (show_data_classes
                         (dict_get "classes" (dataset_meta model)))
                     (inr v)].
Proof.
  refine (proj1 (C2_unknown_class_name Demo.single Demo.picky_args [] _ _
                   ["dog"; "cat"] eq_refl eq_refl eq_refl) _ eq_refl).
  intros model Hin. vm_compute in Hin.
  repeat (destruct Hin as [Hin|Hin]; [try discriminate Hin|]);
    [|contradiction].
  inversion Hin; subst model.
  exists ["person"; "dog"]. split; [reflexivity|].
  apply Exists_cons_tl, Exists_cons_hd. cbn [In]. intuition discriminate.
Defined.

(** C3 on the directory [d]: [d/a.jpg] is written as [a.jpg] and
    [d/sub/b.jpg] as [sub_b.jpg]. *)
Lemma C3_witness :
  let args := Scenes.folder_args in
  let r := run Demo.folder (main args) [] in
  map (fun c => match c with
                | add_datasample _ name _ _ _ _ _ _ _ => name
                | _ => EmptyString
                end) (outputs (fst r)) = ["a.jpg"; "sub_b.jpg"] /\
  outputs_per_file args (fst r) (snd r) (fun _ source_type file c =>
    exists name : string,
      written_as args c name /\
      if is_dir source_type then
        exists rel : string,
          In (Ev (os_path_relpath file (img args)) (inr rel)) (fst r) /\
          name = PyStr.map_char PyStr.slash PyStr.underscore rel /\
          String.length name = String.length rel /\
          PyStr.mem_char PyStr.slash name = false
      else
        name = OsPath.basename file /\
        PyStr.mem_char PyStr.slash name = false /\
        exists head : string,
          file = (head ++ name)%string /\
          (head = EmptyString \/
           PyStr.ends_with_char PyStr.slash head = true)).
Proof.
  split; [reflexivity|].
  exact (C3_output_filename Demo.folder Scenes.folder_args []
           (fst (run Demo.folder (main Scenes.folder_args) []))
           (snd (run Demo.folder (main Scenes.folder_args) []))
           eq_refl).
Defined.


(** C5 on the export of [a.jpg], alone and in the whole run. *)
Lemma C5_witness :
  let t := fst (run Demo.single (Demo.one_image Demo.labelme_args) []) in
  let o := snd (run Demo.single (Demo.one_image Demo.labelme_args) []) in
  let r := run Demo.single (main Demo.labelme_args) [] in
  (count is_visualize t = 0 /\ count is_export t <= 1) /\
  (o = Returned tt -> count is_export t = 1) /\
  (never_fails Demo.single -> o = Returned tt) /\
  count is_visualize (fst r) = 0 /\
  outputs_per_file Demo.labelme_args (fst r) (snd r) (fun model' _ file' c =>
    is_export c = true /\
    exists result : DataSample,
      In (Ev (inference_detector model' file') (inr result)) (fst r) /\
      carries Demo.labelme_args c result).
Proof.
  destruct (C5_one_output_path Demo.single Demo.labelme_args Demo.coco tt tt
              Demo.one_file 1 "a.jpg" [] _ _ eq_refl eq_refl)
    as (Hpaths & Hdone & Hends & Hmain).
  destruct (Hmain []
              (fst (run Demo.single (main Demo.labelme_args) []))
              (snd (run Demo.single (main Demo.labelme_args) []))
              eq_refl) as [Hnone Hper].
  exact (conj Hpaths (conj Hdone (conj Hends (conj Hnone Hper)))).
Defined.

(** C6 on [image_demo.py a.jpg cfg.py ckpt.pth --class-name dog
    --to-labelme]. *)
Lemma C6_witness :
  let r := run Demo.single (main Demo.dog_args) [] in
  snd r = Returned tt /\
  exists t' msg v,
    fst r = t' ++ [Ev (print_log msg) (inr v)] /\
    msg = (newline ++ "Labelme format label files had all been saved in "
             ++ "./output")%string.
Proof.
  refine (C6_completion_message Demo.single Demo.dog_args [] _ _
            eq_refl eq_refl _ eq_refl).
  intros model Hin. vm_compute in Hin.
  repeat (destruct Hin as [Hin|Hin]; [try discriminate Hin|]);
    [|contradiction].
  inversion Hin; subst model. intros c [<-|[]].
  exists ["person"; "dog"]. split; [reflexivity | cbn [In]; auto].
Defined.

(** C6 as stated fails in [--show] mode: the run on [a.jpg] returns
    normally, no call having failed, and prints no completion message. *)
Lemma C6_counterexample :
  let r := run Demo.single (main Demo.show_args) [] in
  (to_labelme Demo.show_args && show Demo.show_args)%bool = false /\
  class_name Demo.show_args = None /\
  forallb succeeded (fst r) = true /\
  snd r = Returned tt /\
  count is_print_log (fst r) = 0.
Proof.
  vm_compute. repeat split; reflexivity.
Qed.


(** C8 on a directory of two images. *)
Lemma C8_witness :
  let r := run Demo.folder (main (Demo.defaults "d")) [] in
  exists (files : list string) (k : nat),
    progress_view (fst r) = firstn k (expected_progress files) /\
    (snd r = Returned tt ->
     progress_view (fst r) = expected_progress files /\
     count is_update (fst r) = List.length files).
Proof.
  exact (proj1 (C8_progress Demo.folder (Demo.defaults "d") [] _ _ eq_refl)).
Defined.

(** C9 on [image_demo.py a.jpg cfg.py ckpt.pth --show]. *)
Lemma C9_witness :
  let t := fst (run Demo.single (main Demo.show_args) []) in
  (forall filename : string, choose_out_file Demo.show_args filename = None) /\
  Forall (fun ev => writes_nothing (ev_call ev)) t /\
  count is_mkdir t = 0 /\ count is_export t = 0.
Proof.
  exact (C9_show_writes_nothing Demo.single Demo.show_args [] _ _
           eq_refl eq_refl).
Defined.

(** C10 on [image_demo.py a.jpg cfg.py ckpt.pth --to-labelme --out-dir
    out.jpg].  The image output path of line 101 is [out.jpg/a.jpg], its
    final extension [.jpg] occurs exactly once in the file name [a.jpg],
    and the directory the script makes is [out.jpg]; yet the one export
    call of the run is handed [out.json/a.json] and not
    [out.jpg/a.json], the image output path with its final extension
    replaced: lines 111-112 replace the extension wherever it occurs in
    the whole path. *)
Theorem C10_annotation_path :
  let args := Demo.odd_dir_args in
  let r := run Demo.single (main args) [] in
  let out_file := OsPath.join (out_dir args) "a.jpg" in
  out_file = "out.jpg/a.jpg" /\
  OsPath.splitext out_file = ("out.jpg/a", ".jpg") /\
  PyStr.occurrences ".jpg" "a.jpg" = 1 /\
  In (Ev (mkdir_or_exist "out.jpg") (inr tt)) (fst r) /\
  outputs (fst r)
  = [to_label_format tt [Demo.detection 0 9] tt "out.json/a.json" None] /\
  (fst (OsPath.splitext out_file) ++ ".json")%string = "out.jpg/a.json" /\
  "out.json/a.json" <> (fst (OsPath.splitext out_file) ++ ".json")%string.
Proof.
  cbv zeta. repeat split; try reflexivity.
  - vm_compute. auto 20.
  - vm_compute. discriminate.
Qed.

(** X2 on [out/README], a path without an extension. *)
Lemma X2_witness :
  PyStr.mem_char PyStr.dot (OsPath.basename "o/R") = false /\
  labelme_out_file "o/R" = ".jsono.json/.jsonR.json" /\
  String.length (labelme_out_file "o/R") = 23 /\
  ("o/R" <> EmptyString -> labelme_out_file "o/R" <> "o/R.json").
Proof.
  split; [reflexivity|].
  exact (X2_annotation_path_without_extension "o/R" eq_refl).
Defined.

(** X3 on the rendering of [d/sub/b.jpg] of the directory [d]. *)
Lemma X3_witness :
  let args := Scenes.folder_args in
  let t := fst (run Demo.folder (main args) []) in
  let ev := Ev (add_datasample tt "sub_b.jpg" "d/sub/b.jpg" Demo.sample
                  false false 0%Z (Some "./output/sub_b.jpg") 3%Z)
              (inr tt) in
  In ev t /\
  PyStr.mem_char PyStr.slash "sub_b.jpg" = false /\
  (show args = true -> Some "./output/sub_b.jpg" = None) /\
  (show args = false ->
   Some "./output/sub_b.jpg" = Some (OsPath.join (out_dir args) "sub_b.jpg") /\
   OsPath.basename (OsPath.join (out_dir args) "sub_b.jpg") = "sub_b.jpg").
Proof.
  cbv zeta.
  assert (Hin : In (Ev (add_datasample tt "sub_b.jpg" "d/sub/b.jpg"
                          Demo.sample false false 0%Z
                          (Some "./output/sub_b.jpg") 3%Z) (inr tt))
                   (fst (run Demo.folder (main Scenes.folder_args) []))).
  { vm_compute. do 19 right. left. reflexivity. }
  split; [exact Hin|].
  exact (X3_rendered_output_path Demo.folder Scenes.folder_args []
           (fst (run Demo.folder (main Scenes.folder_args) []))
           (snd (run Demo.folder (main Scenes.folder_args) []))
           _ tt "sub_b.jpg" "d/sub/b.jpg" Demo.sample false false 0%Z
           (Some "./output/sub_b.jpg") 3%Z eq_refl Hin eq_refl).
Defined.

(** X4 on [d/sub/b.jpg] and [d/sub_b.jpg] of the directory [d]. *)
Lemma X4_witness :
  let name file := snd (run Demo.folder (choose_filename Demo.a_dir file "d") []) in
  "d/sub/b.jpg" <> "d/sub_b.jpg" /\
  name "d/sub/b.jpg" = name "d/sub_b.jpg" /\
  name "d/sub/b.jpg" = Returned "sub_b.jpg".
Proof.
  exact (X4_flattened_names_collide Demo.folder [] Demo.a_dir
           "d/sub/b.jpg" "d/sub_b.jpg" "d" "sub/b.jpg"
           eq_refl eq_refl eq_refl eq_refl).
Defined.

(** X5 on [a.jpg] with the default flags: the visualizer call is the
    thirteenth call, and [./output] is made among the twelve before. *)
Lemma X5_witness :
  let t := fst (run Demo.single (main (Demo.defaults "a.jpg")) []) in
  exists ev : event,
    nth_error t 12 = Some ev /\ is_output (ev_call ev) = true /\
    existsb (made_dir "./output") (firstn 12 t) = true.
Proof.
  cbv zeta.
  destruct (nth_error (fst (run Demo.single (main (Demo.defaults "a.jpg")) []))
              12) as [ev|] eqn:E; [|vm_compute in E; discriminate E].
  exists ev. split; [reflexivity|].
  assert (Hout : is_output (ev_call ev) = true)
    by (vm_compute in E; inversion E; reflexivity).
  split; [exact Hout|].
  refine (X5_directory_before_output Demo.single (Demo.defaults "a.jpg") []
            (fst (run Demo.single (main (Demo.defaults "a.jpg")) []))
            (snd (run Demo.single (main (Demo.defaults "a.jpg")) []))
            eq_refl eq_refl _ ev
            (skipn 13 (fst (run Demo.single (main (Demo.defaults "a.jpg")) [])))
            _ Hout).
  vm_compute in E. inversion E. reflexivity.
Defined.

(** X6 on [--class-name dog cat], which ends in the raise for [cat]. *)
Lemma X6_witness :
  let r := run Demo.single (main Demo.picky_args) [] in
  snd r = Raised (unknown_class_error "cat") /\
  count is_inference (fst r) = 0 /\ count is_output (fst r) = 0 /\
  count is_print_log (fst r) = 0 /\
  ((to_labelme Demo.picky_args && show Demo.picky_args)%bool = false ->
   count is_init (fst r) = 1 /\ count is_listing (fst r) = 1 /\
   count is_mkdir (fst r) = 1).
Proof.
  split; [reflexivity|].
  exact (X6_raise_before_any_work Demo.single Demo.picky_args []
           (fst (run Demo.single (main Demo.picky_args) []))
           (snd (run Demo.single (main Demo.picky_args) []))
           (unknown_class_error "cat") eq_refl eq_refl).
Defined.

(** X7 on [--class-name dog --to-labelme] with a model without classes. *)
Lemma X7_witness :
  let r := run Scenes.bare_world (main Demo.dog_args) [] in
  let none := TypeError "argument of type 'NoneType' is not iterable" in
  snd r = Faulted none /\
  (forall e, snd r = Faulted e ->
     e = none /\
     count is_inference (fst r) = 0 /\
     exists c rest model,
       class_name Demo.dog_args = Some (c :: rest) /\
       In (Some model) (map returned_model (fst r)) /\
       dict_get "classes" (dataset_meta model) = None) /\
  ((to_labelme Demo.dog_args && show Demo.dog_args)%bool = false ->
   (exists c rest, class_name Demo.dog_args = Some (c :: rest)) ->
   (forall model, In (Some model) (map returned_model (fst r)) ->
      dict_get "classes" (dataset_meta model) = None) ->
   forallb succeeded (fst r) = true ->
   snd r = Faulted none).
Proof.
  split; [reflexivity|].
  exact (X7_missing_classes Scenes.bare_world Demo.dog_args []
           (fst (run Scenes.bare_world (main Demo.dog_args) []))
           (snd (run Scenes.bare_world (main Demo.dog_args) []))
           eq_refl).
Defined.


(** X9 on [a.jpg] with [--deploy]. *)
Lemma X9_witness :
  let t := fst (run Demo.single (main Scenes.deploy_args) []) in
  count is_deploy t = 1 /\
  count is_deploy t <= 1 /\
  (forall m, In (Some m) (map (fun ev => deployed_model (ev_call ev)) t) ->
             In (Some m) (map returned_model t)) /\
  (deploy Scenes.deploy_args = true ->
   forall t1 ev t2,
     t = t1 ++ ev :: t2 -> is_inference (ev_call ev) = true ->
     existsb deployed t1 = true).
Proof.
  split; [reflexivity|].
  exact (X9_deploy_before_inference Demo.single Scenes.deploy_args []
           (fst (run Demo.single (main Scenes.deploy_args) []))
           (snd (run Demo.single (main Scenes.deploy_args) []))
           eq_refl).
Defined.

(** X10 on the inference on [d/sub/b.jpg] of the directory [d]. *)
Lemma X10_witness :
  let t := fst (run Demo.folder (main Scenes.folder_args) []) in
  let ev := Ev (inference_detector Demo.coco "d/sub/b.jpg") (inr Demo.sample) in
  In ev t /\
  (forall m file, inferred (ev_call ev) = Some (m, file) ->
     In (Some m) (map returned_model t) /\
     exists files, In (Listed files) (progress_view t) /\ In file files) /\
  (forall file, read_image (ev_call ev) = Some file ->
     exists files, In (Listed files) (progress_view t) /\ In file files).
Proof.
  cbv zeta.
  assert (Hin : In (Ev (inference_detector Demo.coco "d/sub/b.jpg")
                      (inr Demo.sample))
                   (fst (run Demo.folder (main Scenes.folder_args) []))).
  { vm_compute. do 14 right. left. reflexivity. }
  split; [exact Hin|].
  exact (X10_work_on_listed_files Demo.folder Scenes.folder_args []
           (fst (run Demo.folder (main Scenes.folder_args) []))
           (snd (run Demo.folder (main Scenes.folder_args) []))
           _ eq_refl Hin).
Defined.

(** X11 on the rendering of [a.jpg] with the default flags. *)
Lemma X11_witness :
  let t := fst (run Demo.single (main (Demo.defaults "a.jpg")) []) in
  let ev := Ev (add_datasample tt "a.jpg" "a.jpg" Demo.sample false false
                  0%Z (Some "./output/a.jpg") 3%Z) (inr tt) in
  In ev t /\
  (forall v name image data_sample draw_gt sh wait_time out_file thr,
     ev_call ev = add_datasample v name image data_sample draw_gt sh
                    wait_time out_file thr ->
     draw_gt = false /\ sh = show (Demo.defaults "a.jpg") /\
     wait_time = 0%Z /\
     exists model r,
       In (Some model) (map returned_model t) /\
       In (Ev (VISUALIZERS_build (cfg_visualizer model)) (inr v)) t /\
       In (Ev (set_dataset_meta v (dataset_meta model)) (inr r)) t) /\
  (forall f instances meta output_path selected,
     ev_call ev = to_label_format f instances meta output_path selected ->
     selected = class_name (Demo.defaults "a.jpg") /\
     exists model,
       In (Some model) (map returned_model t) /\
       In (Ev (LabelmeFormat (dict_get "classes" (dataset_meta model)))
             (inr f)) t).
Proof.
  cbv zeta.
  assert (Hin : In (Ev (add_datasample tt "a.jpg" "a.jpg" Demo.sample false
                          false 0%Z (Some "./output/a.jpg") 3%Z) (inr tt))
                   (fst (run Demo.single (main (Demo.defaults "a.jpg")) []))).
  { vm_compute. do 12 right. left. reflexivity. }
  split; [exact Hin|].
  exact (X11_output_objects Demo.single (Demo.defaults "a.jpg") []
           (fst (run Demo.single (main (Demo.defaults "a.jpg")) []))
           (snd (run Demo.single (main (Demo.defaults "a.jpg")) []))
           _ eq_refl Hin).
Defined.
